(** * c7_react: the streaming hooks of [src/index.ts]

    A shallow embedding of [useDamlLedgerContext], [useStreamQuery] and
    [useMultiStreamQuery], together with the JavaScript [Map] operations
    the stream handlers use, and the properties of the subscription
    lifecycle that hold (or fail) on that code. *)

From Stdlib Require Import List String Bool Arith NArith Lia.
Import ListNotations.
Local Open Scope string_scope.
Local Open Scope list_scope.

Set Implicit Arguments.

(** ** JavaScript [Map] with string keys

    A [Map] iterates in insertion order: [set] on a key already present
    overwrites the value in place, [set] on a new key appends, [delete]
    drops the entry.  [new Map(prevMap)] copies, which a persistent list
    gives for free. *)
Module JsMap.
Section WithValue.
Variable V : Type.

Definition t := list (string * V).

Definition empty : t := [].

Fixpoint get (k : string) (m : t) : option V :=
  match m with
  | [] => None
  | (k', v) :: r => if String.eqb k' k then Some v else get k r
  end.

Definition has (k : string) (m : t) : bool :=
  match get k m with Some _ => true | None => false end.

Fixpoint set (k : string) (v : V) (m : t) : t :=
  match m with
  | [] => [(k, v)]
  | (k', v') :: r =>
      if String.eqb k' k then (k, v) :: r else (k', v') :: set k v r
  end.

Definition delete (k : string) (m : t) : t :=
  filter (fun kv => negb (String.eqb (fst kv) k)) m.

Definition keys (m : t) : list string := map fst m.
End WithValue.
Arguments empty {V}.
End JsMap.

(** ** Ledger data ([@daml/types], [@c7/ledger/lite])

    The collaborator's types are not part of the repository; only the
    fields the hooks touch are kept. *)
Definition ContractId := string.

Record CreateEvent := mkCreateEvent {
  contractId : ContractId;
  payload : string
}.

Record ArchiveEvent := mkArchiveEvent {
  archivedContractId : ContractId
}.

(** [StreamState] is a string union; the hooks only test [state === "live"]. *)
Definition StreamState := string.

(** The [error] state holds [CantonError | string | null].  A
    [CantonError] carries a message and a [cause] of the same kind. *)
Inductive ErrorValue : Type :=
| ErrNull
| ErrString (s : string)
| ErrCanton (message : string) (cause : ErrorValue).

Record CantonError := mkCantonError {
  ce_message : string;
  ce_cause : ErrorValue
}.

Definition canton (err : CantonError) : ErrorValue :=
  ErrCanton (ce_message err) (ce_cause err).

(** What a [catch (err: unknown)] can receive: an [Error] instance with its
    [name] and [message], or any other value. *)
Inductive Thrown : Type :=
| ThrownError (name message : string)
| ThrownOther.

(** ** The materialized view: the two [setContractsMap] reducers *)
Definition ContractsMap := JsMap.t CreateEvent.

(** [prevMap => new Map(prevMap).set(event.contractId, event)] *)
Definition on_create_reducer (event : CreateEvent) (prevMap : ContractsMap)
  : ContractsMap :=
  JsMap.set (contractId event) event prevMap.

(** [prevMap => { const newMap = new Map(prevMap);
                  newMap.delete(event.contractId); return newMap; }] *)
Definition on_archive_reducer (event : ArchiveEvent) (prevMap : ContractsMap)
  : ContractsMap :=
  JsMap.delete (archivedContractId event) prevMap.

Inductive DataEvent : Type :=
| Addition (event : CreateEvent)
| Removal (event : ArchiveEvent).

Definition event_key (e : DataEvent) : ContractId :=
  match e with
  | Addition ev => contractId ev
  | Removal ev => archivedContractId ev
  end.

Definition apply_data (view : ContractsMap) (e : DataEvent) : ContractsMap :=
  match e with
  | Addition ev => on_create_reducer ev view
  | Removal ev => on_archive_reducer ev view
  end.

(** The handlers run in arrival order, each on the map the previous left. *)
Definition fold_events (es : list DataEvent) (view : ContractsMap)
  : ContractsMap :=
  fold_left apply_data es view.

(** *** What the specification says of the view, in its own words *)

(** "[ev] is the last addition written for [k], and [k] was not removed
    afterwards": no later event names [k]. *)
Definition last_addition (es : list DataEvent) (k : ContractId)
  (ev : CreateEvent) : Prop :=
  exists pre post,
    es = pre ++ Addition ev :: post /\
    contractId ev = k /\
    forall e, In e post -> event_key e <> k.

(** The latest event about [k], read from the newest end of the history. *)
Fixpoint latest_about (k : ContractId) (newest_first : list DataEvent)
  : option CreateEvent :=
  match newest_first with
  | [] => None
  | Addition ev :: older =>
      if String.eqb (contractId ev) k then Some ev else latest_about k older
  | Removal ev :: older =>
      if String.eqb (archivedContractId ev) k then None
      else latest_about k older
  end.

(** "added and not yet removed" after the history [es]. *)
Definition present_after (k : ContractId) (es : list DataEvent) : bool :=
  match latest_about k (rev es) with Some _ => true | None => false end.

Definition removed_in (k : ContractId) (es : list DataEvent) : bool :=
  existsb (fun e => match e with
                    | Removal ev => String.eqb (archivedContractId ev) k
                    | Addition _ => false
                    end) es.

(** Keys in the order their additions first arrived: every addition's key,
    keeping the first occurrence only. *)
Fixpoint first_arrivals (seen : list ContractId) (es : list DataEvent)
  : list ContractId :=
  match es with
  | [] => []
  | Addition ev :: rest =>
      if existsb (String.eqb (contractId ev)) seen
      then first_arrivals seen rest
      else contractId ev :: first_arrivals (contractId ev :: seen) rest
  | Removal _ :: rest => first_arrivals seen rest
  end.

(** The order as the specification words it: the keys still present, by
    first arrival. *)
Definition first_arrival_order (es : list DataEvent) : list ContractId :=
  filter (fun k => present_after k es) (first_arrivals [] es).

(** The additions that introduce an entry: the key is absent when the
    addition arrives and is not removed later.  [pre] is the history
    before [es]. *)
Fixpoint introducing_additions (pre es : list DataEvent) : list ContractId :=
  match es with
  | [] => []
  | Addition ev :: post =>
      (if negb (present_after (contractId ev) pre)
          && negb (removed_in (contractId ev) post)
       then [contractId ev] else [])
      ++ introducing_additions (pre ++ [Addition ev]) post
  | Removal ev :: post => introducing_additions (pre ++ [Removal ev]) post
  end.

(** ** Exceptions and mutable state

    The hooks are written against shared mutable cells (React state, refs,
    the timer table, the collaborator's streams) and a [try]/[catch].  A
    computation takes the store, returns a value or a thrown value, and the
    store it leaves behind: what a [try] block did before it threw is kept. *)
Inductive Result (A : Type) : Type :=
| Ok (a : A)
| Throw (t : Thrown).
Arguments Ok {A} a.
Arguments Throw {A} t.

Definition M (S A : Type) : Type := S -> Result A * S.

Definition ret {S A} (a : A) : M S A := fun s => (Ok a, s).

Definition bind {S A B} (c : M S A) (k : A -> M S B) : M S B :=
  fun s => match c s with
           | (Ok a, s') => k a s'
           | (Throw t, s') => (Throw t, s')
           end.

Definition throw {S A} (t : Thrown) : M S A := fun s => (Throw t, s).

Definition try_catch {S A} (body : M S A) (handler : Thrown -> M S A)
  : M S A :=
  fun s => match body s with
           | (Ok a, s') => (Ok a, s')
           | (Throw t, s') => handler t s'
           end.

Definition gets {S A} (f : S -> A) : M S A := fun s => (Ok (f s), s).

Definition modify {S} (f : S -> S) : M S unit := fun s => (Ok tt, f s).

(** [await p]: the promise [p] has settled with [outcome]. *)
Definition await {S A} (outcome : Result A) : M S A := fun s => (outcome, s).

Declare Scope hook_scope.
Delimit Scope hook_scope with hook.
Notation "x <- c ;; k" := (bind c (fun x => k))
  (at level 61, c at next level, right associativity) : hook_scope.
Notation "c ;; k" := (bind c (fun _ => k))
  (at level 61, right associativity) : hook_scope.

(** JavaScript truthiness of a [number | null] cell: [null] and [0] are
    falsy. *)
Definition truthy_number (r : option nat) : bool :=
  match r with
  | None => false
  | Some 0 => false
  | Some (S _) => true
  end.

(** A TypeError, as thrown by a method call on [null]. *)
Definition TypeError : Thrown :=
  ThrownError "TypeError" "Cannot read properties of null".

(** ** The platform and the ledger collaborator

    What the hooks call but do not define: [setTimeout]/[clearTimeout] and
    the [Ledger] with its streams.  The world records the calls made; which
    of the pending things happens next is the environment's choice. *)

(** The values an effect closure captures: its dependency list. *)
Record Descriptor := mkDescriptor {
  d_ledger : nat;
  d_template : string;
  d_atOffset : string;
  d_includeCreatedEventBlob : bool;
  d_readAsParties : option (list string)
}.

(** A stream object is identified by a number. *)
Abbreviation Handle := nat (only parsing).

Record World := mkWorld {
  w_calls : nat;
  w_pending : list (Handle * Descriptor);
  w_listeners : list (Handle * string);
  w_started : list Handle;
  w_closed : list Handle;
  w_timer_count : nat;
  w_timers : list (nat * (N * Descriptor))
}.

Definition initial_world : World :=
  mkWorld 0 [] [] [] [] 0 [].

(** [ledger.streamQuery(template, atOffset, false, blob, readAsParties)] and
    [ledger.createMultiStream(...)]: a new call, pending until the promise
    settles.  The stream a call yields is identified with the call. *)
Definition call_stream (d : Descriptor) (w : World) : World :=
  mkWorld (S (w_calls w)) (w_pending w ++ [(w_calls w, d)])
          (w_listeners w) (w_started w) (w_closed w)
          (w_timer_count w) (w_timers w).

Definition settle (rq : Handle) (w : World) : World :=
  mkWorld (w_calls w)
          (filter (fun p => negb (Nat.eqb (fst p) rq)) (w_pending w))
          (w_listeners w) (w_started w) (w_closed w)
          (w_timer_count w) (w_timers w).

Definition pending_call (rq : Handle) (w : World) : option Descriptor :=
  option_map snd (find (fun p => Nat.eqb (fst p) rq) (w_pending w)).

(** [stream.on(cls, handler)] *)
Definition stream_on (cls : string) (h : Handle) (w : World) : World :=
  mkWorld (w_calls w) (w_pending w) (w_listeners w ++ [(h, cls)])
          (w_started w) (w_closed w) (w_timer_count w) (w_timers w).

Definition listening (h : Handle) (cls : string) (w : World) : bool :=
  existsb (fun p => Nat.eqb (fst p) h && String.eqb (snd p) cls)
          (w_listeners w).

(** [stream.start()] *)
Definition stream_start (h : Handle) (w : World) : World :=
  mkWorld (w_calls w) (w_pending w) (w_listeners w)
          (w_started w ++ [h]) (w_closed w) (w_timer_count w) (w_timers w).

(** [stream.close()] *)
Definition stream_close (h : Handle) (w : World) : World :=
  mkWorld (w_calls w) (w_pending w) (w_listeners w)
          (w_started w) (w_closed w ++ [h]) (w_timer_count w) (w_timers w).

Definition is_closed (h : Handle) (w : World) : bool :=
  existsb (Nat.eqb h) (w_closed w).

(** [setTimeout(callback, delay)]: timer ids are positive integers; the
    callback is the closure of the effect run that captured [d]. *)
Definition setTimeout (d : Descriptor) (delay : N) (w : World)
  : nat * World :=
  let id := S (w_timer_count w) in
  (id, mkWorld (w_calls w) (w_pending w) (w_listeners w)
               (w_started w) (w_closed w) id
               (w_timers w ++ [(id, (delay, d))])).

(** [clearTimeout(id)]: unknown or expired ids are ignored. *)
Definition clearTimeout (id : nat) (w : World) : World :=
  mkWorld (w_calls w) (w_pending w) (w_listeners w)
          (w_started w) (w_closed w) (w_timer_count w)
          (filter (fun t => negb (Nat.eqb (fst t) id)) (w_timers w)).

Definition pending_timer (id : nat) (w : World) : option (N * Descriptor) :=
  option_map snd (find (fun t => Nat.eqb (fst t) id) (w_timers w)).

(** The refs of a stream hook: they live as long as the component and are
    shared by every run of its effect. *)
Record Refs := mkRefs {
  streamRef : option Handle;
  isCleanedUpRef : bool;
  reconnectTimeoutRef : option nat
}.

Definition initial_refs : Refs := mkRefs None false None.

(** ** The provider and its context *)
Record DamlLedgerConfig := mkConfig {
  ledger : nat;
  reloadTrigger : nat
}.

(** [useContext(DamlLedgerContext)]: the value of the nearest enclosing
    provider, innermost first, or the default [null] of [createContext]. *)
Definition useContext (providers : list DamlLedgerConfig)
  : option DamlLedgerConfig :=
  match providers with
  | [] => None
  | value :: _ => Some value
  end.

Definition misuse_error : Thrown :=
  ThrownError "Error"
    "useDamlLedgerContext must be used within a DamlLedger provider".

Definition useDamlLedgerContext (providers : list DamlLedgerConfig)
  : Result DamlLedgerConfig :=
  match useContext providers with
  | None => Throw misuse_error
  | Some context => Ok context
  end.

Definition useLedger (providers : list DamlLedgerConfig) : Result nat :=
  match useDamlLedgerContext providers with
  | Ok context => Ok (ledger context)
  | Throw t => Throw t
  end.

(** [useReload] returns [triggerReload]; the function is stable, so only
    whether the call returns is kept. *)
Definition useReload (providers : list DamlLedgerConfig) : Result unit :=
  match useDamlLedgerContext providers with
  | Ok _ => Ok tt
  | Throw t => Throw t
  end.

(** The render of the hooks that start with [useLedger()] and return their
    state: [useUser], [useRightsAs]. *)
Definition useUser {R : Type} (providers : list DamlLedgerConfig)
  (state : R) : Result R :=
  match useLedger providers with
  | Ok _ => Ok state
  | Throw t => Throw t
  end.

Definition useRightsAs {R : Type} (providers : list DamlLedgerConfig)
  (state : R) : Result R :=
  match useLedger providers with
  | Ok _ => Ok state
  | Throw t => Throw t
  end.

(** [useQuery] starts with [useDamlLedgerContext()] and returns its state. *)
Definition useQuery {R : Type} (providers : list DamlLedgerConfig)
  (state : R) : Result R :=
  match useDamlLedgerContext providers with
  | Ok _ => Ok state
  | Throw t => Throw t
  end.

(** The [DamlLedger] component: [reloadTrigger] state and the memoized
    [Ledger], rebuilt whenever [reloadTrigger] changes.  Ledger objects are
    numbered in the order they are constructed. *)
Record DamlLedgerState := mkDamlLedger {
  dl_reloadTrigger : nat;
  dl_ledger : nat
}.

Definition DamlLedger_initial : DamlLedgerState := mkDamlLedger 0 0.

Definition contextValue (st : DamlLedgerState) : DamlLedgerConfig :=
  mkConfig (dl_ledger st) (dl_reloadTrigger st).

(** [triggerReload]: [setReloadTrigger(prev => prev + 1)], and the next
    render of the provider constructs a new [Ledger]. *)
Definition triggerReload (st : DamlLedgerState) : DamlLedgerState :=
  mkDamlLedger (dl_reloadTrigger st + 1) (S (dl_ledger st)).

(** ** [useStreamQuery] *)
Module StreamQuery.

Record Hook := mkHook {
  contractsMap : ContractsMap;
  loading : bool;
  connected : bool;
  error : ErrorValue
}.

Record System := mkSystem {
  hook : Hook;
  refs : Refs;
  world : World
}.

(** The [useState] and [useRef] initial values. *)
Definition initial : System :=
  mkSystem (mkHook JsMap.empty true false ErrNull) initial_refs initial_world.

Definition on_hook (f : Hook -> Hook) : M System unit :=
  modify (fun s => mkSystem (f (hook s)) (refs s) (world s)).

Definition on_refs (f : Refs -> Refs) : M System unit :=
  modify (fun s => mkSystem (hook s) (f (refs s)) (world s)).

Definition on_world (f : World -> World) : M System unit :=
  modify (fun s => mkSystem (hook s) (refs s) (f (world s))).

Definition setContractsMap (f : ContractsMap -> ContractsMap)
  : M System unit :=
  on_hook (fun h => mkHook (f (contractsMap h)) (loading h) (connected h)
                           (error h)).

Definition setLoading (b : bool) : M System unit :=
  on_hook (fun h => mkHook (contractsMap h) b (connected h) (error h)).

Definition setConnected (b : bool) : M System unit :=
  on_hook (fun h => mkHook (contractsMap h) (loading h) b (error h)).

Definition setError (e : ErrorValue) : M System unit :=
  on_hook (fun h => mkHook (contractsMap h) (loading h) (connected h) e).

Definition set_streamRef (r : option Handle) : M System unit :=
  on_refs (fun x => mkRefs r (isCleanedUpRef x) (reconnectTimeoutRef x)).

Definition set_isCleanedUpRef (b : bool) : M System unit :=
  on_refs (fun x => mkRefs (streamRef x) b (reconnectTimeoutRef x)).

Definition set_reconnectTimeoutRef (r : option nat) : M System unit :=
  on_refs (fun x => mkRefs (streamRef x) (isCleanedUpRef x) r).

(** [streamRef.current.method(...)]: a TypeError when the ref holds [null]. *)
Definition with_stream (method : Handle -> World -> World) : M System unit :=
  fun s => match streamRef (refs s) with
           | Some h => on_world (method h) s
           | None => (Throw TypeError, s)
           end.

Local Open Scope hook_scope.

(** The four listeners registered on the stream. *)
Definition handle_create (event : CreateEvent) : M System unit :=
  setContractsMap (on_create_reducer event).

Definition handle_archive (event : ArchiveEvent) : M System unit :=
  setContractsMap (on_archive_reducer event).

Definition handle_error (err : CantonError) : M System unit :=
  setError (canton err) ;;
  setConnected false.

Definition handle_state (state : StreamState) : M System unit :=
  setConnected (String.eqb state "live") ;;
  if String.eqb state "live" then setLoading false else ret tt.

(** [reload], the function returned to the consumer. *)
Definition reload : M System unit :=
  setLoading true ;;
  setError ErrNull ;;
  setContractsMap (fun _ => JsMap.empty).

(** [setupStream], from its call to the [await]. *)
Definition setupStream (d : Descriptor) : M System unit :=
  cleaned <- gets (fun s => isCleanedUpRef (refs s)) ;;
  if (cleaned : bool) then ret tt
  else
    setLoading true ;;
    setError ErrNull ;;
    on_world (call_stream d).

Definition errorMessage (err : Thrown) : string :=
  match err with
  | ThrownError name message => name ++ ": " ++ message
  | ThrownOther => "Failed to setup stream"
  end.

(** [setupStream], from the settled [await] to its end: the rest of the
    [try] block and the [catch]. *)
Definition setupStream_resume (d : Descriptor) (outcome : Result Handle)
  : M System unit :=
  try_catch
    (stream <- await outcome ;;
     set_streamRef (Some stream) ;;
     with_stream (stream_on "create") ;;
     with_stream (stream_on "archive") ;;
     with_stream (stream_on "error") ;;
     with_stream (stream_on "state") ;;
     with_stream stream_start)
    (fun err =>
       setError (ErrString (errorMessage err)) ;;
       setConnected false ;;
       setLoading false ;;
       cleaned <- gets (fun s => isCleanedUpRef (refs s)) ;;
       if negb cleaned then
         fun s =>
           let (id, w) := setTimeout d 5000%N (world s) in
           set_reconnectTimeoutRef (Some id)
             (mkSystem (hook s) (refs s) w)
       else ret tt).

(** The body of the streaming effect. *)
Definition effect (d : Descriptor) : M System unit :=
  set_isCleanedUpRef false ;;
  setupStream d.

(** The function the streaming effect returns. *)
Definition cleanup : M System unit :=
  set_isCleanedUpRef true ;;
  timeout <- gets (fun s => reconnectTimeoutRef (refs s)) ;;
  (if truthy_number timeout then
     on_world (match timeout with
               | Some id => clearTimeout id
               | None => fun w => w
               end) ;;
     set_reconnectTimeoutRef None
   else ret tt) ;;
  stream <- gets (fun s => streamRef (refs s)) ;;
  (match stream with
   | Some _ =>
       with_stream stream_close ;;
       set_streamRef None
   | None => ret tt
   end) ;;
  setConnected false.

(** The second effect: [if (reloadTrigger > 0) reload()]. *)
Definition reload_effect (reloadTrigger : nat) : M System unit :=
  if Nat.ltb 0 reloadTrigger then reload else ret tt.

(** What the environment can make happen to a mounted hook. *)
Inductive Event : Type :=
| EffectRun (d : Descriptor)
| EffectCleanup
| StreamCreated (rq : Handle)
| StreamFailed (rq : Handle) (err : Thrown)
| TimerFired (id : nat)
| Create (h : Handle) (event : CreateEvent)
| Archive (h : Handle) (event : ArchiveEvent)
| Error (h : Handle) (err : CantonError)
| State (h : Handle) (state : StreamState)
| Reload
| ReloadEffect (reloadTrigger : nat).

(** One event; [None] when the event cannot happen in this state (no such
    pending call or timer, no such listener).  A listener can be called as
    soon as it is registered, and the hook never unregisters one: whether a
    closed stream still delivers what was in flight is up to the
    collaborator, so the model allows it. *)
Definition step (e : Event) (s : System) : option (Result unit * System) :=
  match e with
  | EffectRun d => Some (effect d s)
  | EffectCleanup => Some (cleanup s)
  | StreamCreated rq =>
      match pending_call rq (world s) with
      | Some d => Some ((on_world (settle rq) ;;
                         setupStream_resume d (Ok rq)) s)
      | None => None
      end
  | StreamFailed rq err =>
      match pending_call rq (world s) with
      | Some d => Some ((on_world (settle rq) ;;
                         setupStream_resume d (Throw err)) s)
      | None => None
      end
  | TimerFired id =>
      match pending_timer id (world s) with
      | Some (_, d) => Some ((on_world (clearTimeout id) ;; setupStream d) s)
      | None => None
      end
  | Create h event =>
      if listening h "create" (world s) then Some (handle_create event s)
      else None
  | Archive h event =>
      if listening h "archive" (world s) then Some (handle_archive event s)
      else None
  | Error h err =>
      if listening h "error" (world s) then Some (handle_error err s)
      else None
  | State h state =>
      if listening h "state" (world s) then Some (handle_state state s)
      else None
  | Reload => Some (reload s)
  | ReloadEffect n => Some (reload_effect n s)
  end.

(** A sequence of events, stopping at the first that cannot happen or that
    throws. *)
Fixpoint run (es : list Event) (s : System) : option System :=
  match es with
  | [] => Some s
  | e :: rest =>
      match step e s with
      | Some (Ok _, s') => run rest s'
      | _ => None
      end
  end.

(** What a render returns to the consumer. *)
Record StreamQueryResult := mkResult {
  r_contractsMap : ContractsMap;
  r_loading : bool;
  r_connected : bool;
  r_error : ErrorValue
}.

Definition useStreamQuery (providers : list DamlLedgerConfig) (s : System)
  : Result StreamQueryResult :=
  match useDamlLedgerContext providers with
  | Ok _ =>
      Ok (mkResult (contractsMap (hook s)) (loading (hook s))
                   (connected (hook s)) (error (hook s)))
  | Throw t => Throw t
  end.

End StreamQuery.

(** ** [useMultiStreamQuery] *)
Module MultiStreamQuery.

Record Hook := mkHook {
  multiStream : option Handle;
  loading : bool;
  connected : bool;
  error : ErrorValue
}.

Record System := mkSystem {
  hook : Hook;
  refs : Refs;
  world : World
}.

Definition initial : System :=
  mkSystem (mkHook None true false ErrNull) initial_refs initial_world.

Definition on_hook (f : Hook -> Hook) : M System unit :=
  modify (fun s => mkSystem (f (hook s)) (refs s) (world s)).

Definition on_refs (f : Refs -> Refs) : M System unit :=
  modify (fun s => mkSystem (hook s) (f (refs s)) (world s)).

Definition on_world (f : World -> World) : M System unit :=
  modify (fun s => mkSystem (hook s) (refs s) (f (world s))).

Definition setMultiStream (v : option Handle) : M System unit :=
  on_hook (fun h => mkHook v (loading h) (connected h) (error h)).

Definition setLoading (b : bool) : M System unit :=
  on_hook (fun h => mkHook (multiStream h) b (connected h) (error h)).

Definition setConnected (b : bool) : M System unit :=
  on_hook (fun h => mkHook (multiStream h) (loading h) b (error h)).

Definition setError (e : ErrorValue) : M System unit :=
  on_hook (fun h => mkHook (multiStream h) (loading h) (connected h) e).

Definition set_streamRef (r : option Handle) : M System unit :=
  on_refs (fun x => mkRefs r (isCleanedUpRef x) (reconnectTimeoutRef x)).

Definition set_isCleanedUpRef (b : bool) : M System unit :=
  on_refs (fun x => mkRefs (streamRef x) b (reconnectTimeoutRef x)).

Definition set_reconnectTimeoutRef (r : option nat) : M System unit :=
  on_refs (fun x => mkRefs (streamRef x) (isCleanedUpRef x) r).

Definition with_stream (method : Handle -> World -> World) : M System unit :=
  fun s => match streamRef (refs s) with
           | Some h => on_world (method h) s
           | None => (Throw TypeError, s)
           end.

Local Open Scope hook_scope.

(** The [onState] and [onError] listeners. *)
Definition handle_state (state : StreamState) : M System unit :=
  setConnected (String.eqb state "live") ;;
  if String.eqb state "live" then setLoading false else ret tt.

Definition handle_error (err : CantonError) : M System unit :=
  setError (ce_cause err) ;;
  setConnected false.

Definition reload : M System unit :=
  setLoading true ;;
  setError ErrNull ;;
  setMultiStream None.

Definition setupStream (d : Descriptor) : M System unit :=
  cleaned <- gets (fun s => isCleanedUpRef (refs s)) ;;
  if (cleaned : bool) then ret tt
  else
    setLoading true ;;
    setError ErrNull ;;
    on_world (call_stream d).

Definition errorMessage (err : Thrown) : string :=
  match err with
  | ThrownError name message => name ++ ": " ++ message
  | ThrownOther => "Failed to setup multi-stream"
  end.

Definition setupStream_resume (d : Descriptor) (outcome : Result Handle)
  : M System unit :=
  try_catch
    (stream <- await outcome ;;
     set_streamRef (Some stream) ;;
     with_stream (stream_on "state") ;;
     with_stream (stream_on "error") ;;
     current <- gets (fun s => streamRef (refs s)) ;;
     setMultiStream current ;;
     with_stream stream_start)
    (fun err =>
       setError (ErrString (errorMessage err)) ;;
       setConnected false ;;
       setLoading false ;;
       cleaned <- gets (fun s => isCleanedUpRef (refs s)) ;;
       if negb cleaned then
         fun s =>
           let (id, w) := setTimeout d 5000%N (world s) in
           set_reconnectTimeoutRef (Some id)
             (mkSystem (hook s) (refs s) w)
       else ret tt).

Definition effect (d : Descriptor) : M System unit :=
  set_isCleanedUpRef false ;;
  setupStream d.

Definition cleanup : M System unit :=
  set_isCleanedUpRef true ;;
  timeout <- gets (fun s => reconnectTimeoutRef (refs s)) ;;
  (if truthy_number timeout then
     on_world (match timeout with
               | Some id => clearTimeout id
               | None => fun w => w
               end) ;;
     set_reconnectTimeoutRef None
   else ret tt) ;;
  stream <- gets (fun s => streamRef (refs s)) ;;
  (match stream with
   | Some _ =>
       with_stream stream_close ;;
       set_streamRef None
   | None => ret tt
   end) ;;
  setConnected false ;;
  setMultiStream None.

Definition reload_effect (reloadTrigger : nat) : M System unit :=
  if Nat.ltb 0 reloadTrigger then reload else ret tt.

Inductive Event : Type :=
| EffectRun (d : Descriptor)
| EffectCleanup
| StreamCreated (rq : Handle)
| StreamFailed (rq : Handle) (err : Thrown)
| TimerFired (id : nat)
| Error (h : Handle) (err : CantonError)
| State (h : Handle) (state : StreamState)
| Reload
| ReloadEffect (reloadTrigger : nat).

Definition step (e : Event) (s : System) : option (Result unit * System) :=
  match e with
  | EffectRun d => Some (effect d s)
  | EffectCleanup => Some (cleanup s)
  | StreamCreated rq =>
      match pending_call rq (world s) with
      | Some d => Some ((on_world (settle rq) ;;
                         setupStream_resume d (Ok rq)) s)
      | None => None
      end
  | StreamFailed rq err =>
      match pending_call rq (world s) with
      | Some d => Some ((on_world (settle rq) ;;
                         setupStream_resume d (Throw err)) s)
      | None => None
      end
  | TimerFired id =>
      match pending_timer id (world s) with
      | Some (_, d) => Some ((on_world (clearTimeout id) ;; setupStream d) s)
      | None => None
      end
  | Error h err =>
      if listening h "error" (world s) then Some (handle_error err s)
      else None
  | State h state =>
      if listening h "state" (world s) then Some (handle_state state s)
      else None
  | Reload => Some (reload s)
  | ReloadEffect n => Some (reload_effect n s)
  end.

Fixpoint run (es : list Event) (s : System) : option System :=
  match es with
  | [] => Some s
  | e :: rest =>
      match step e s with
      | Some (Ok _, s') => run rest s'
      | _ => None
      end
  end.

Record MultiStreamQueryResult := mkResult {
  r_multiStream : option Handle;
  r_loading : bool;
  r_connected : bool;
  r_error : ErrorValue
}.

Definition useMultiStreamQuery (providers : list DamlLedgerConfig)
  (s : System) : Result MultiStreamQueryResult :=
  match useDamlLedgerContext providers with
  | Ok _ =>
      Ok (mkResult (multiStream (hook s)) (loading (hook s))
                   (connected (hook s)) (error (hook s)))
  | Throw t => Throw t
  end.

End MultiStreamQuery.

(** ** Sample values used to exercise the definitions *)
(** The default subscription to "Main:Order", on the ledger object the
    provider currently supplies. *)
Definition order_on (cfg : DamlLedgerConfig) : Descriptor :=
  mkDescriptor (ledger cfg) "Main:Order" "end" false None.

Definition order_descriptor : Descriptor :=
  order_on (contextValue DamlLedger_initial).

Definition order_descriptor_alice : Descriptor :=
  mkDescriptor 0 "Main:Order" "end" false (Some ["alice"]).

Definition o1 : CreateEvent := mkCreateEvent "o1" "X".
Definition o1' : CreateEvent := mkCreateEvent "o1" "X2".
Definition o2 : CreateEvent := mkCreateEvent "o2" "Y".
Definition archive_o1 : ArchiveEvent := mkArchiveEvent "o1".

Definition connection_lost : CantonError :=
  mkCantonError "connection lost" (ErrString "ECONNRESET").

Definition network_error : Thrown := ThrownError "Error" "network down".

(** Add [o1], add [o2], remove [o1], add [o1] again. *)
Definition readd_history : list DataEvent :=
  [Addition o1; Addition o2; Removal archive_o1; Addition o1'].

Module SQ := StreamQuery.
Module MQ := MultiStreamQuery.

(** A single stream that is live and holds one contract. *)
Definition live_with_o1 : list SQ.Event :=
  [SQ.EffectRun order_descriptor; SQ.StreamCreated 0; SQ.State 0 "live";
   SQ.Create 0 o1].

Definition live_state : SQ.System :=
  Eval vm_compute in
    match SQ.run live_with_o1 SQ.initial with
    | Some s => s
    | None => SQ.initial
    end.

(** The live stream is stopped. *)
Definition stopped_state : SQ.System :=
  Eval vm_compute in
    match SQ.run [SQ.EffectCleanup] live_state with
    | Some s => s
    | None => SQ.initial
    end.

(** The live stream is stopped and a second one, for a changed descriptor,
    has been started and created: handle 0 is superseded by handle 1. *)
Definition restarted_state : SQ.System :=
  Eval vm_compute in
    match SQ.run [SQ.EffectCleanup; SQ.EffectRun order_descriptor_alice;
                  SQ.StreamCreated 1] live_state with
    | Some s => s
    | None => SQ.initial
    end.

(** The descriptor changes while the first stream call is still pending;
    both calls then succeed, the first after the stop. *)
Definition overlapping_runs : list SQ.Event :=
  [SQ.EffectRun order_descriptor; SQ.EffectCleanup;
   SQ.EffectRun order_descriptor_alice;
   SQ.StreamCreated 0; SQ.StreamCreated 1].

Definition overlapped_state : SQ.System :=
  Eval vm_compute in
    match SQ.run overlapping_runs SQ.initial with
    | Some s => s
    | None => SQ.initial
    end.

(** ** Well-formed states of [useStreamQuery]

    Stream handles are the numbers of calls already made, timer ids are
    positive numbers already handed out. *)
Definition world_ok (w : World) : Prop :=
  Forall (fun t => fst t <= w_timer_count w) (w_timers w) /\
  Forall (fun p => fst p < w_calls w) (w_pending w) /\
  Forall (fun p => fst p < w_calls w) (w_listeners w) /\
  Forall (fun h => h < w_calls w) (w_started w) /\
  Forall (fun h => h < w_calls w) (w_closed w).

Definition refs_ok (r : Refs) (w : World) : Prop :=
  (forall h, streamRef r = Some h -> h < w_calls w) /\
  (forall id, reconnectTimeoutRef r = Some id ->
              0 < id /\ id <= w_timer_count w).

Definition well_formed (s : SQ.System) : Prop :=
  world_ok (SQ.world s) /\ refs_ok (SQ.refs s) (SQ.world s).

(** The states a mounted hook can be in: those some sequence of events
    leads to from the initial one. *)
Definition reachable (s : SQ.System) : Prop :=
  exists es, SQ.run es SQ.initial = Some s.

(** A handle the world has seen: pending, listened to, started or closed. *)
Definition known_handle (h : Handle) (w : World) : Prop :=
  In h (map fst (w_pending w)) \/ In h (map fst (w_listeners w)) \/
  In h (w_started w) \/ In h (w_closed w).

(** The hook has been mounted and its first stream call is pending. *)
Definition connecting_state : SQ.System :=
  Eval vm_compute in snd (SQ.effect order_descriptor SQ.initial).

(** ** One lifetime of the streaming effect

    The effect runs once and, until its cleanup, only streams settle,
    timers fire, listeners are called and the consumer reloads. *)
Definition lifecycle_event (e : SQ.Event) : bool :=
  match e with
  | SQ.EffectRun _ | SQ.EffectCleanup => true
  | _ => false
  end.

Definition within_lifetime (es : list SQ.Event) : bool :=
  forallb (fun e => negb (lifecycle_event e)) es.

(** During one lifetime the hook is connecting (one call pending), waiting
    (one timer pending, the one the ref records) or streaming (one stream
    started, the one the ref holds), and nothing has been closed. *)
Definition connecting (s : SQ.System) : Prop :=
  exists rq d,
    w_pending (SQ.world s) = [(rq, d)] /\ w_timers (SQ.world s) = [] /\
    streamRef (SQ.refs s) = None /\ w_started (SQ.world s) = [].

Definition waiting (s : SQ.System) : Prop :=
  exists id x,
    w_pending (SQ.world s) = [] /\ w_timers (SQ.world s) = [(S id, x)] /\
    reconnectTimeoutRef (SQ.refs s) = Some (S id) /\
    streamRef (SQ.refs s) = None /\ w_started (SQ.world s) = [].

Definition streaming (s : SQ.System) : Prop :=
  exists h,
    w_pending (SQ.world s) = [] /\ w_timers (SQ.world s) = [] /\
    streamRef (SQ.refs s) = Some h /\ w_started (SQ.world s) = [h].

Definition in_lifetime (s : SQ.System) : Prop :=
  isCleanedUpRef (SQ.refs s) = false /\
  w_closed (SQ.world s) = [] /\
  (connecting s \/ waiting s \/ streaming s).

(** ** How the events of [useStreamQuery] act on the view *)

(** The events that run [setContractsMap(new Map())]: [reload], and the
    reload effect when [reloadTrigger > 0]. *)
Definition resets_view (e : SQ.Event) : bool :=
  match e with
  | SQ.Reload => true
  | SQ.ReloadEffect n => Nat.ltb 0 n
  | _ => false
  end.

(** The data event a listener call carries. *)
Definition data_of (e : SQ.Event) : list DataEvent :=
  match e with
  | SQ.Create _ event => [Addition event]
  | SQ.Archive _ event => [Removal event]
  | _ => []
  end.

(** The view a history accounts for: the base is the view before the
    history, or the empty map from the last reset on; the data events are
    the ones delivered since. *)
Fixpoint view_history (es : list SQ.Event) (base : ContractsMap)
  (delivered : list DataEvent) : ContractsMap * list DataEvent :=
  match es with
  | [] => (base, delivered)
  | e :: rest =>
      if resets_view e then view_history rest JsMap.empty []
      else view_history rest base (delivered ++ data_of e)
  end.

Definition is_effect_run (e : SQ.Event) : bool :=
  match e with
  | SQ.EffectRun _ => true
  | _ => false
  end.

Definition count_failures (es : list SQ.Event) : nat :=
  List.length (filter (fun e => match e with
                                | SQ.StreamFailed _ _ => true
                                | _ => false
                                end) es).

Definition count_timers_fired (es : list SQ.Event) : nat :=
  List.length (filter (fun e => match e with
                                | SQ.TimerFired _ => true
                                | _ => false
                                end) es).

(** The effect is cleaned up while its first stream call is pending. *)
Definition stopped_while_connecting : SQ.System :=
  Eval vm_compute in snd (SQ.cleanup connecting_state).

(** ... and the call then fails. *)
Definition failed_after_stop : SQ.System :=
  Eval vm_compute in
    match SQ.run [SQ.StreamFailed 0 network_error] stopped_while_connecting
    with
    | Some s => s
    | None => SQ.initial
    end.

(** The four event classes [useStreamQuery] listens to. *)
Definition stream_event_classes : list string :=
  ["create"; "archive"; "error"; "state"].

(** During one lifetime every call and every timer carries the descriptor
    the effect ran with, and timers the delay of 5000 ms. *)
Definition retries_carry (d : Descriptor) (s : SQ.System) : Prop :=
  Forall (fun p => snd p = d) (w_pending (SQ.world s)) /\
  Forall (fun t => snd t = (5000%N, d)) (w_timers (SQ.world s)).

(** ** States of [useMultiStreamQuery] *)
Definition multi_reachable (m : MQ.System) : Prop :=
  exists es, MQ.run es MQ.initial = Some m.

(** What holds of the handles of [useMultiStreamQuery]: the published
    multi-stream is the referenced one; the referenced one is started,
    neither closed nor pending; pending calls are not closed; handles are
    numbers of calls already made. *)
Definition multi_handles_ok (m : MQ.System) : Prop :=
  (forall h, MQ.multiStream (MQ.hook m) = Some h ->
             streamRef (MQ.refs m) = Some h) /\
  (forall h, streamRef (MQ.refs m) = Some h ->
             ~ In h (w_closed (MQ.world m)) /\
             ~ In h (map fst (w_pending (MQ.world m))) /\
             In h (w_started (MQ.world m)) /\
             listening h "state" (MQ.world m) = true /\
             listening h "error" (MQ.world m) = true /\
             h < w_calls (MQ.world m)) /\
  (forall h, In h (map fst (w_pending (MQ.world m))) ->
             ~ In h (w_closed (MQ.world m)) /\ h < w_calls (MQ.world m)) /\
  (forall h, In h (w_closed (MQ.world m)) -> h < w_calls (MQ.world m)).

(** The multi-stream hook is mounted and its stream has been created. *)
Definition multi_created_state : MQ.System :=
  Eval vm_compute in
    match MQ.run [MQ.EffectRun order_descriptor; MQ.StreamCreated 0]
                 MQ.initial with
    | Some m => m
    | None => MQ.initial
    end.

(** ** Re-rendering a stream hook: the dependency lists

    [options] as the caller passes them.  A [readAsParties] array is an
    object: it has an identity besides its contents. *)
Record PartyArray := mkPartyArray {
  array_id : nat;
  array_items : list string
}.

Record QueryOptions := mkQueryOptions {
  opt_atOffset : option string;
  opt_includeCreatedEventBlob : option bool;
  opt_readAsParties : option PartyArray
}.

(** [const { atOffset = "end", includeCreatedEventBlob = false,
     readAsParties } = options] *)
Definition atOffset_of (o : QueryOptions) : string :=
  match opt_atOffset o with Some x => x | None => "end" end.

Definition includeCreatedEventBlob_of (o : QueryOptions) : bool :=
  match opt_includeCreatedEventBlob o with Some b => b | None => false end.

(** What one run of the effect captures: the arguments of the stream call. *)
Definition descriptor_of (cfg : DamlLedgerConfig) (templateId : string)
  (o : QueryOptions) : Descriptor :=
  mkDescriptor (ledger cfg) templateId (atOffset_of o)
               (includeCreatedEventBlob_of o)
               (option_map array_items (opt_readAsParties o)).

(** [Object.is] on [readAsParties]: the same array object, or both
    [undefined]. *)
Definition same_object (a b : option PartyArray) : bool :=
  match a, b with
  | None, None => true
  | Some x, Some y => Nat.eqb (array_id x) (array_id y)
  | _, _ => false
  end.

(** [JSON.stringify(readAsParties)]: the text determines the items and the
    items the text, so comparing the texts compares the contents
    ([undefined] stays [undefined]). *)
Definition same_json (a b : option PartyArray) : bool :=
  match a, b with
  | None, None => true
  | Some x, Some y =>
      if list_eq_dec string_dec (array_items x) (array_items y)
      then true else false
  | _, _ => false
  end.

(** The dependency list of the streaming effect of [useStreamQuery]:
    [[ledger, template.templateId, atOffset, includeCreatedEventBlob,
      readAsParties]]. *)
Definition stream_deps_same (cfg cfg' : DamlLedgerConfig)
  (templateId templateId' : string) (o o' : QueryOptions) : bool :=
  Nat.eqb (ledger cfg) (ledger cfg')
  && String.eqb templateId templateId'
  && String.eqb (atOffset_of o) (atOffset_of o')
  && Bool.eqb (includeCreatedEventBlob_of o) (includeCreatedEventBlob_of o')
  && same_object (opt_readAsParties o) (opt_readAsParties o').

(** That of [useMultiStreamQuery]:
    [[ledger, JSON.stringify(templateMapping), atOffset,
      includeCreatedEventBlob, JSON.stringify(readAsParties)]]. *)
Definition multi_deps_same (cfg cfg' : DamlLedgerConfig)
  (mapping mapping' : string) (o o' : QueryOptions) : bool :=
  Nat.eqb (ledger cfg) (ledger cfg')
  && String.eqb mapping mapping'
  && String.eqb (atOffset_of o) (atOffset_of o')
  && Bool.eqb (includeCreatedEventBlob_of o) (includeCreatedEventBlob_of o')
  && same_json (opt_readAsParties o) (opt_readAsParties o').

(** A re-render of a mounted hook.  React compares each dependency list
    with the one of the previous render; when an entry differs it runs the
    previous cleanup and then the effect of this render.  The streaming
    effect comes first, the reload effect ([[reloadTrigger, reload]], with
    [reload] stable) second. *)
Definition stream_rerender (cfg cfg' : DamlLedgerConfig)
  (templateId templateId' : string) (o o' : QueryOptions)
  : M SQ.System unit :=
  bind (if stream_deps_same cfg cfg' templateId templateId' o o'
        then ret tt
        else bind SQ.cleanup
                  (fun _ => SQ.effect (descriptor_of cfg' templateId' o')))
       (fun _ =>
          if Nat.eqb (reloadTrigger cfg) (reloadTrigger cfg') then ret tt
          else SQ.reload_effect (reloadTrigger cfg')).

Definition multi_rerender (cfg cfg' : DamlLedgerConfig)
  (mapping mapping' : string) (o o' : QueryOptions)
  : M MQ.System unit :=
  bind (if multi_deps_same cfg cfg' mapping mapping' o o'
        then ret tt
        else bind MQ.cleanup
                  (fun _ => MQ.effect (descriptor_of cfg' mapping' o')))
       (fun _ =>
          if Nat.eqb (reloadTrigger cfg) (reloadTrigger cfg') then ret tt
          else MQ.reload_effect (reloadTrigger cfg')).

(** Options naming alice, and the same parties in a new array. *)
Definition alice_options : QueryOptions :=
  mkQueryOptions None None (Some (mkPartyArray 1 ["alice"])).

Definition alice_options_again : QueryOptions :=
  mkQueryOptions (Some "end") (Some false) (Some (mkPartyArray 2 ["alice"])).

(** ** [useRightsAs] *)

(** A right of the user: [{ type, party? }]. *)
Record Right := mkRight {
  right_type : string;
  right_party : option string
}.

(** JavaScript truthiness of [string | undefined]: [undefined] and the
    empty string are falsy. *)
Definition truthy_string (s : option string) : bool :=
  match s with
  | None => false
  | Some x => negb (String.eqb x "")
  end.

Definition string_value (s : option string) : string :=
  match s with Some x => x | None => "" end.

(** The accumulator of the [reduce]: the two party arrays, and the rights
    passed to [console.warn]. *)
Record RightsAcc := mkRightsAcc {
  acc_actAs : list string;
  acc_readAs : list string;
  acc_warned : list Right
}.

Definition rights_step (acc : RightsAcc) (right : Right) : RightsAcc :=
  if String.eqb (right_type right) "canActAs"
     && truthy_string (right_party right)
  then mkRightsAcc (acc_actAs acc ++ [string_value (right_party right)])
                   (acc_readAs acc) (acc_warned acc)
  else if String.eqb (right_type right) "canReadAs"
          && truthy_string (right_party right)
  then mkRightsAcc (acc_actAs acc)
                   (acc_readAs acc ++ [string_value (right_party right)])
                   (acc_warned acc)
  else mkRightsAcc (acc_actAs acc) (acc_readAs acc)
                   (acc_warned acc ++ [right]).

(** What [getUserInfo] resolves with: possibly nothing, possibly without a
    [rights] array. *)
Record UserInfo := mkUserInfo {
  ui_rights : option (list Right)
}.

(** [rights?.rights || []] *)
Definition rights_of (info : option UserInfo) : list Right :=
  match info with
  | Some i => match ui_rights i with Some l => l | None => [] end
  | None => []
  end.

(** [(rights?.rights || []).reduce(..., [[], []])] *)
Definition decompose_rights (info : option UserInfo) : RightsAcc :=
  fold_left rights_step (rights_of info) (mkRightsAcc [] [] []).

Definition grants (kind : string) (r : Right) : bool :=
  String.eqb (right_type r) kind && truthy_string (right_party r).

Module RightsAs.

Record Hook := mkHook {
  actAsParties : list string;
  readAsParties : list string;
  loading : bool;
  error : option string
}.

(** The hook with the [getUserInfo] calls still pending (the user id asked
    for), and what was passed to [console.warn]. *)
Record System := mkSystem {
  hook : Hook;
  calls : nat;
  pending : list (nat * string);
  warnings : list Right
}.

Definition initial : System :=
  mkSystem (mkHook [] [] true None) 0 [] [].

(** [userId || ledger.getTokenUserId()] *)
Definition requested_user (userId : option string) (tokenUserId : string)
  : string :=
  if truthy_string userId then string_value userId else tokenUserId.

(** [fetchActAsParties], from its call to the [await]. *)
Definition fetch (userId : option string) (tokenUserId : string)
  (s : System) : System :=
  mkSystem (hook s) (S (calls s))
           (pending s ++ [(calls s, requested_user userId tokenUserId)])
           (warnings s).

(** [err instanceof Error ? err.message : "Failed to fetch user rights"] *)
Definition errorMessage (err : Thrown) : string :=
  match err with
  | ThrownError _ message => message
  | ThrownOther => "Failed to fetch user rights"
  end.

(** [fetchActAsParties], from the settled [await] on: the rest of the
    [try], the [catch] and the [finally]. *)
Definition resume (outcome : Result (option UserInfo)) (s : System)
  : System :=
  let h := hook s in
  match outcome with
  | Ok info =>
      let acc := decompose_rights info in
      mkSystem (mkHook (acc_actAs acc) (acc_readAs acc) false (error h))
               (calls s) (pending s) (warnings s ++ acc_warned acc)
  | Throw err =>
      mkSystem (mkHook (actAsParties h) (readAsParties h) false
                       (Some (errorMessage err)))
               (calls s) (pending s) (warnings s)
  end.

Inductive Event : Type :=
| EffectRun (userId : option string) (tokenUserId : string)
| Settled (rq : nat) (outcome : Result (option UserInfo)).

Definition step (e : Event) (s : System) : option System :=
  match e with
  | EffectRun userId tokenUserId => Some (fetch userId tokenUserId s)
  | Settled rq outcome =>
      if existsb (fun p => Nat.eqb (fst p) rq) (pending s)
      then Some (resume outcome
                   (mkSystem (hook s) (calls s)
                      (filter (fun p => negb (Nat.eqb (fst p) rq))
                              (pending s))
                      (warnings s)))
      else None
  end.

Fixpoint run (es : list Event) (s : System) : option System :=
  match es with
  | [] => Some s
  | e :: rest =>
      match step e s with
      | Some s' => run rest s'
      | None => None
      end
  end.

End RightsAs.

(** Rights as a participant reports them, one of them without a party. *)
Definition sample_rights : list Right :=
  [mkRight "canActAs" (Some "alice"); mkRight "participantAdmin" None;
   mkRight "canReadAs" (Some "bob"); mkRight "canActAs" (Some "")].

(** A failed fetch of the rights, then a successful one. *)
Definition rights_failed_then_fetched : list RightsAs.Event :=
  [RightsAs.EffectRun None "alice-user";
   RightsAs.Settled 0 (Throw network_error);
   RightsAs.EffectRun (Some "bob-user") "alice-user";
   RightsAs.Settled 1 (Ok (Some (mkUserInfo (Some sample_rights))))].

Definition rights_after_refetch : RightsAs.System :=
  Eval vm_compute in
    match RightsAs.run rights_failed_then_fetched RightsAs.initial with
    | Some s => s
    | None => RightsAs.initial
    end.

(** ** [useQuery] and [useUser] *)

(** An [Error] object. *)
Record JsError := mkJsError {
  err_name : string;
  err_message : string
}.

(** [err instanceof Error ? err : new Error(fallback)] *)
Definition as_error (fallback : string) (err : Thrown) : JsError :=
  match err with
  | ThrownError name message => mkJsError name message
  | ThrownOther => mkJsError "Error" fallback
  end.

Module Query.

(** What the [reload] closure captures and passes to [ledger.query]
    (the verbose flag is the constant [false]).  The template is an
    object, compared by identity. *)
Record QueryArgs := mkQueryArgs {
  q_ledger : nat;
  q_template : nat;
  q_atOffset : string;
  q_includeCreatedEventBlob : bool;
  q_readAsParties : option (list string)
}.

Record Hook := mkHook {
  contracts : list CreateEvent;
  loading : bool;
  error : option JsError
}.

(** The mounted hook: its state, the memoized [reload] with the arguments
    it captured, the [reloadTrigger] the effect last ran with, and the
    [ledger.query] calls still pending. *)
Record System := mkSystem {
  hook : Hook;
  reload_fn : QueryArgs;
  reload_id : nat;
  seen_trigger : nat;
  calls : nat;
  pending : list (nat * QueryArgs)
}.

(** [reload], from its call to the [await]. *)
Definition reload (s : System) : System :=
  mkSystem (mkHook (contracts (hook s)) true None)
           (reload_fn s) (reload_id s) (seen_trigger s)
           (S (calls s)) (pending s ++ [(calls s, reload_fn s)]).

(** The first render: [useState] initial values, [useCallback] stores the
    closure, the effect calls it. *)
Definition mount (args : QueryArgs) (reloadTrigger : nat) : System :=
  reload (mkSystem (mkHook [] true None) args 0 reloadTrigger 0 []).

(** The dependency list of [useCallback]:
    [[ledger, template, atOffset, includeCreatedEventBlob]]. *)
Definition callback_deps_same (a b : QueryArgs) : bool :=
  Nat.eqb (q_ledger a) (q_ledger b)
  && Nat.eqb (q_template a) (q_template b)
  && String.eqb (q_atOffset a) (q_atOffset b)
  && Bool.eqb (q_includeCreatedEventBlob a) (q_includeCreatedEventBlob b).

(** A later render: [useCallback] keeps the stored closure unless one of
    its dependencies changed; the effect ([[reload, reloadTrigger]]) runs
    when the closure or the trigger changed. *)
Definition rerender (args : QueryArgs) (reloadTrigger : nat) (s : System)
  : System :=
  let kept := callback_deps_same (reload_fn s) args in
  let s1 := if kept then s
            else mkSystem (hook s) args (S (reload_id s)) (seen_trigger s)
                          (calls s) (pending s) in
  if kept && Nat.eqb reloadTrigger (seen_trigger s) then s1
  else reload (mkSystem (hook s1) (reload_fn s1) (reload_id s1)
                        reloadTrigger (calls s1) (pending s1)).

(** [reload], from the settled [await] on. *)
Definition resume (outcome : Result (list CreateEvent)) (s : System)
  : System :=
  let h := hook s in
  let h' := match outcome with
            | Ok result => mkHook result false (error h)
            | Throw err =>
                mkHook [] false
                       (Some (as_error "Failed to query contracts" err))
            end in
  mkSystem h' (reload_fn s) (reload_id s) (seen_trigger s) (calls s)
           (pending s).

Inductive Event : Type :=
| Rerender (args : QueryArgs) (reloadTrigger : nat)
| Reload
| Settled (rq : nat) (outcome : Result (list CreateEvent)).

Definition take (rq : nat) (s : System) : System :=
  mkSystem (hook s) (reload_fn s) (reload_id s) (seen_trigger s) (calls s)
           (filter (fun p => negb (Nat.eqb (fst p) rq)) (pending s)).

Definition step (e : Event) (s : System) : option System :=
  match e with
  | Rerender args reloadTrigger => Some (rerender args reloadTrigger s)
  | Reload => Some (reload s)
  | Settled rq outcome =>
      if existsb (fun p => Nat.eqb (fst p) rq) (pending s)
      then Some (resume outcome (take rq s))
      else None
  end.

(** The event starts a query while another one is still pending. *)
Definition overlaps (e : Event) (s : System) : bool :=
  match e with
  | Settled _ _ => false
  | _ =>
      match pending s, step e s with
      | _ :: _, Some s' => negb (Nat.eqb (calls s') (calls s))
      | _, _ => false
      end
  end.

(** A run in which queries never overlap. *)
Fixpoint run_serial (es : list Event) (s : System) : option System :=
  match es with
  | [] => Some s
  | e :: rest =>
      if overlaps e s then None
      else match step e s with
           | Some s' => run_serial rest s'
           | None => None
           end
  end.

End Query.

Module UserHook.

Record Hook (User : Type) := mkHook {
  user : option User;
  loading : bool;
  error : option JsError
}.
Arguments mkHook {User}.
Arguments user {User}.
Arguments loading {User}.
Arguments error {User}.

Record System (User : Type) := mkSystem {
  hook : Hook User;
  calls : nat;
  pending : list nat
}.
Arguments mkSystem {User}.
Arguments hook {User}.
Arguments calls {User}.
Arguments pending {User}.

Definition initial {User} : System User :=
  mkSystem (mkHook None true None) 0 [].

(** [fetchUser], from its call to the [await]. *)
Definition fetchUser {User} (s : System User) : System User :=
  mkSystem (mkHook (user (hook s)) true None)
           (S (calls s)) (pending s ++ [calls s]).

(** [fetchUser], from the settled [await] on. *)
Definition resume {User} (outcome : Result User) (s : System User)
  : System User :=
  let h' := match outcome with
            | Ok userInfo => mkHook (Some userInfo) false (error (hook s))
            | Throw err =>
                mkHook None false
                       (Some (as_error "Failed to get user info" err))
            end in
  mkSystem h' (calls s) (pending s).

Inductive Event (User : Type) : Type :=
| EffectRun
| Settled (rq : nat) (outcome : Result User).
Arguments EffectRun {User}.
Arguments Settled {User}.

Definition step {User} (e : Event User) (s : System User)
  : option (System User) :=
  match e with
  | EffectRun => Some (fetchUser s)
  | Settled rq outcome =>
      if existsb (Nat.eqb rq) (pending s)
      then Some (resume outcome
                   (mkSystem (hook s) (calls s)
                      (filter (fun p => negb (Nat.eqb p rq)) (pending s))))
      else None
  end.

(** A run in which the effect never re-runs while a fetch is pending. *)
Fixpoint run_serial {User} (es : list (Event User)) (s : System User)
  : option (System User) :=
  match es with
  | [] => Some s
  | e :: rest =>
      match e, pending s with
      | EffectRun, _ :: _ => None
      | _, _ =>
          match step e s with
          | Some s' => run_serial rest s'
          | None => None
          end
      end
  end.

End UserHook.

Definition alice_query : Query.QueryArgs :=
  Query.mkQueryArgs 0 7 "end" false (Some ["alice"]).

Definition bob_query : Query.QueryArgs :=
  Query.mkQueryArgs 0 7 "end" false (Some ["bob"]).

(** A query succeeds, the consumer reloads, the second query fails. *)
Definition query_then_failure : list Query.Event :=
  [Query.Settled 0 (Ok [o1]); Query.Reload;
   Query.Settled 1 (Throw network_error)].

Definition query_failed_state : Query.System :=
  Eval vm_compute in
    match Query.run_serial query_then_failure (Query.mount alice_query 0) with
    | Some s => s
    | None => Query.mount alice_query 0
    end.

(** The user is fetched, the ledger changes, the second fetch fails. *)
Definition user_then_failure : list (UserHook.Event string) :=
  [UserHook.EffectRun; UserHook.Settled 0 (Ok "alice-user");
   UserHook.EffectRun; UserHook.Settled 1 (Throw ThrownOther)].

Definition user_failed_state : UserHook.System string :=
  Eval vm_compute in
    match UserHook.run_serial user_then_failure UserHook.initial with
    | Some s => s
    | None => UserHook.initial
    end.

(** The situations of [useUser]: not fetched yet; one fetch pending; or
    settled, with exactly one of [user] and [error] set. *)
Definition user_settled_or_fetching {User : Type}
  (s : UserHook.System User) : Prop :=
  (UserHook.pending s = [] /\ UserHook.calls s = 0 /\
   UserHook.hook s = UserHook.mkHook None true None) \/
  (exists rq, UserHook.pending s = [rq] /\
              UserHook.loading (UserHook.hook s) = true /\
              UserHook.error (UserHook.hook s) = None) \/
  (UserHook.pending s = [] /\ UserHook.loading (UserHook.hook s) = false /\
   ((UserHook.user (UserHook.hook s) <> None /\
     UserHook.error (UserHook.hook s) = None) \/
    (UserHook.user (UserHook.hook s) = None /\
     UserHook.error (UserHook.hook s) <> None))).

(** ** Rendering [DamlLedger]

    Objects are numbered in the order they are allocated.  Every render
    destructures [const { children, ...otherProps } = props], which
    allocates a new [otherProps] object, and [useMemo] rebuilds the ledger
    when [reloadTrigger] or [otherProps] is not the one of the previous
    render ([Object.is]). *)
Module LedgerProvider.

Record State := mkState {
  reloadTrigger : nat;
  memo_deps : option (nat * nat);
  ledger : nat;
  allocated : nat
}.

Definition unmounted : State := mkState 0 None 0 0.

Definition same_deps (previous : option (nat * nat)) (trigger props : nat)
  : bool :=
  match previous with
  | Some (t, p) => Nat.eqb t trigger && Nat.eqb p props
  | None => false
  end.

Definition render (st : State) : State :=
  let otherProps := allocated st in
  if same_deps (memo_deps st) (reloadTrigger st) otherProps
  then mkState (reloadTrigger st) (memo_deps st) (ledger st)
               (S (allocated st))
  else mkState (reloadTrigger st) (Some (reloadTrigger st, otherProps))
               (S (allocated st)) (S (S (allocated st))).

(** [setReloadTrigger(prev => prev + 1)] *)
Definition triggerReload (st : State) : State :=
  mkState (reloadTrigger st + 1) (memo_deps st) (ledger st) (allocated st).

(** The value the provider passes down after a render. *)
Definition contextValue (st : State) : DamlLedgerConfig :=
  mkConfig (ledger st) (reloadTrigger st).

Inductive Event : Type :=
| Render
| TriggerReload.

Definition step (e : Event) (st : State) : State :=
  match e with
  | Render => render st
  | TriggerReload => render (triggerReload st)
  end.

Definition run (es : list Event) (st : State) : State :=
  fold_left (fun st e => step e st) es st.

(** Every object the state mentions has been allocated. *)
Definition allocated_ok (st : State) : Prop :=
  ledger st < allocated st /\
  exists t p, memo_deps st = Some (t, p) /\ p < allocated st.

End LedgerProvider.

(** * Properties *)

(** ** The [Map] operations *)
Section JsMapFacts.
Variable V : Type.
Implicit Types (m : JsMap.t V) (k : string) (v : V).

Lemma get_set k k' v m :
  JsMap.get k (JsMap.set k' v m)
  = if String.eqb k' k then Some v else JsMap.get k m.
Proof.
  induction m as [|[k0 v0] r IH]; cbn.
  - destruct (String.eqb_spec k' k); reflexivity.
  - destruct (String.eqb_spec k0 k') as [->|Hne]; cbn.
    + destruct (String.eqb_spec k' k); reflexivity.
    + rewrite IH. destruct (String.eqb_spec k0 k) as [->|]; [|reflexivity].
      destruct (String.eqb_spec k' k); [congruence | reflexivity].
Qed.

Lemma get_delete k k' m :
  JsMap.get k (JsMap.delete k' m)
  = if String.eqb k' k then None else JsMap.get k m.
Proof.
  unfold JsMap.delete.
  induction m as [|[k0 v0] r IH]; cbn.
  - destruct (String.eqb k' k); reflexivity.
  - destruct (String.eqb_spec k0 k') as [->|Hne]; cbn.
    + rewrite IH. destruct (String.eqb_spec k' k); reflexivity.
    + rewrite IH. destruct (String.eqb_spec k0 k) as [->|]; [|reflexivity].
      destruct (String.eqb_spec k' k); [congruence | reflexivity].
Qed.

Lemma has_in_keys k m : JsMap.has k m = true <-> In k (JsMap.keys m).
Proof.
  unfold JsMap.has, JsMap.keys.
  induction m as [|[k0 v0] r IH]; cbn.
  - split; [discriminate | tauto].
  - destruct (String.eqb_spec k0 k) as [->|Hne].
    + split; auto.
    + rewrite IH. split; [auto | intros [?|?]; [congruence | assumption]].
Qed.

Lemma keys_set k v m :
  JsMap.keys (JsMap.set k v m)
  = if JsMap.has k m then JsMap.keys m else JsMap.keys m ++ [k].
Proof.
  unfold JsMap.has, JsMap.keys.
  induction m as [|[k0 v0] r IH]; cbn; [reflexivity|].
  destruct (String.eqb_spec k0 k) as [->|Hne]; cbn; [reflexivity|].
  rewrite IH. destruct (JsMap.get k r); reflexivity.
Qed.

Lemma keys_delete k m :
  JsMap.keys (JsMap.delete k m)
  = filter (fun k' => negb (String.eqb k' k)) (JsMap.keys m).
Proof.
  unfold JsMap.delete, JsMap.keys.
  induction m as [|[k0 v0] r IH]; cbn; [reflexivity|].
  destruct (String.eqb k0 k); cbn; rewrite IH; reflexivity.
Qed.

Lemma delete_absent k m : JsMap.get k m = None -> JsMap.delete k m = m.
Proof.
  unfold JsMap.delete.
  induction m as [|[k0 v0] r IH]; cbn; [reflexivity|].
  destruct (String.eqb k0 k); cbn; [discriminate|].
  intros H. rewrite (IH H). reflexivity.
Qed.

Lemma set_set k v v' m :
  JsMap.set k v' (JsMap.set k v m) = JsMap.set k v' m.
Proof.
  induction m as [|[k0 v0] r IH]; cbn.
  - rewrite String.eqb_refl. reflexivity.
  - destruct (String.eqb_spec k0 k) as [->|Hne]; cbn.
    + rewrite String.eqb_refl. reflexivity.
    + destruct (String.eqb_spec k0 k); [congruence|]. rewrite IH.
      reflexivity.
Qed.

Lemma NoDup_keys_set k v m :
  NoDup (JsMap.keys m) -> NoDup (JsMap.keys (JsMap.set k v m)).
Proof.
  intros H. rewrite keys_set.
  destruct (JsMap.has k m) eqn:E; [assumption|].
  apply NoDup_app; [assumption | repeat constructor; cbn; tauto |].
  intros x Hx [<-|[]]. apply has_in_keys in Hx. congruence.
Qed.

Lemma NoDup_keys_delete k m :
  NoDup (JsMap.keys m) -> NoDup (JsMap.keys (JsMap.delete k m)).
Proof. intros H. rewrite keys_delete. apply NoDup_filter, H. Qed.
End JsMapFacts.

(** ** The view as a fold of the events *)

Lemma fold_events_snoc es e view :
  fold_events (es ++ [e]) view = apply_data (fold_events es view) e.
Proof. unfold fold_events. rewrite fold_left_app. reflexivity. Qed.

Lemma get_apply_data k e view :
  JsMap.get k (apply_data view e)
  = match e with
    | Addition ev =>
        if String.eqb (contractId ev) k then Some ev else JsMap.get k view
    | Removal ev =>
        if String.eqb (archivedContractId ev) k then None
        else JsMap.get k view
    end.
Proof.
  destruct e as [ev|ev]; cbn.
  - apply get_set.
  - apply get_delete.
Qed.

(** Looking a key up in the folded view reads the latest event about it. *)
Lemma get_fold_events k es :
  JsMap.get k (fold_events es JsMap.empty) = latest_about k (rev es).
Proof.
  induction es as [|e es IH] using rev_ind; [reflexivity|].
  rewrite fold_events_snoc, get_apply_data, rev_unit, IH.
  destruct e; reflexivity.
Qed.

Lemma has_fold_events k es :
  JsMap.has k (fold_events es JsMap.empty) = present_after k es.
Proof. unfold JsMap.has, present_after. rewrite get_fold_events. reflexivity. Qed.

Lemma latest_about_skip k l1 l2 :
  (forall e, In e l1 -> event_key e <> k) ->
  latest_about k (l1 ++ l2) = latest_about k l2.
Proof.
  induction l1 as [|e l1 IH]; intros H; [reflexivity|].
  assert (Hk : event_key e <> k) by (apply H; left; reflexivity).
  assert (Hr : forall e', In e' l1 -> event_key e' <> k)
    by (intros e' He'; apply H; right; exact He').
  destruct e as [ev|ev]; cbn in *.
  - destruct (String.eqb_spec (contractId ev) k);
      [contradiction | exact (IH Hr)].
  - destruct (String.eqb_spec (archivedContractId ev) k);
      [contradiction | exact (IH Hr)].
Qed.

Lemma latest_about_found k l ev :
  latest_about k l = Some ev ->
  exists l1 l2,
    l = l1 ++ Addition ev :: l2 /\ contractId ev = k /\
    forall e, In e l1 -> event_key e <> k.
Proof.
  induction l as [|e l IH]; [discriminate|].
  destruct e as [a|a]; cbn.
  - destruct (String.eqb_spec (contractId a) k) as [Hk|Hk].
    + intros [= ->]. exists [], l. cbn. tauto.
    + intros H. destruct (IH H) as (l1 & l2 & -> & Hev & Hl1).
      exists (Addition a :: l1), l2. repeat split; [assumption|].
      intros e [<-|He]; [exact Hk | exact (Hl1 e He)].
  - destruct (String.eqb_spec (archivedContractId a) k) as [Hk|Hk];
      [discriminate|].
    intros H. destruct (IH H) as (l1 & l2 & -> & Hev & Hl1).
    exists (Removal a :: l1), l2. repeat split; [assumption|].
    intros e [<-|He]; [exact Hk | exact (Hl1 e He)].
Qed.

Lemma latest_about_last_addition k es ev :
  latest_about k (rev es) = Some ev <-> last_addition es k ev.
Proof.
  split.
  - intros H. apply latest_about_found in H.
    destruct H as (l1 & l2 & Hrev & Hk & Hl1).
    exists (rev l2), (rev l1). repeat split; [|assumption|].
    + rewrite <- (rev_involutive es), Hrev, rev_app_distr. cbn.
      rewrite <- app_assoc. reflexivity.
    + intros e He. apply Hl1. apply in_rev. exact He.
  - intros (pre & post & -> & Hk & Hpost).
    rewrite rev_app_distr. cbn. rewrite <- app_assoc.
    rewrite latest_about_skip.
    + cbn. rewrite Hk, String.eqb_refl. reflexivity.
    + intros e He. apply Hpost. apply in_rev. exact He.
Qed.

Lemma NoDup_keys_fold_events es view :
  NoDup (JsMap.keys view) -> NoDup (JsMap.keys (fold_events es view)).
Proof.
  revert view. induction es as [|e es IH]; intros view H; [exact H|].
  cbn. apply IH. destruct e; cbn.
  - apply NoDup_keys_set, H.
  - apply NoDup_keys_delete, H.
Qed.

Lemma filter_filter_keys (f g : string -> bool) l :
  filter f (filter g l) = filter (fun x => g x && f x) l.
Proof.
  induction l as [|x l IH]; cbn; [reflexivity|].
  destruct (g x); cbn; [destruct (f x)|]; rewrite IH; reflexivity.
Qed.

(** The keys after a history [pre] followed by [post]: the keys [pre] left
    that [post] does not remove, in place, then the entries [post]
    introduces, in arrival order. *)
Lemma keys_fold_events_split post : forall pre,
  JsMap.keys (fold_events (pre ++ post) JsMap.empty)
  = filter (fun k => negb (removed_in k post))
           (JsMap.keys (fold_events pre JsMap.empty))
    ++ introducing_additions pre post.
Proof.
  induction post as [|e post IH]; intros pre.
  - cbn. rewrite filter_true, !app_nil_r. reflexivity.
  - replace (pre ++ e :: post) with ((pre ++ [e]) ++ post)
      by (rewrite <- app_assoc; reflexivity).
    rewrite IH, fold_events_snoc.
    destruct e as [ev|ev]; cbn [apply_data introducing_additions].
    + unfold on_create_reducer. rewrite keys_set, has_fold_events.
      destruct (present_after (contractId ev) pre); cbn [negb andb];
        [reflexivity|].
      rewrite filter_app, <- app_assoc. cbn [filter].
      destruct (removed_in (contractId ev) post); reflexivity.
    + unfold on_archive_reducer. rewrite keys_delete, filter_filter_keys.
      f_equal. apply filter_ext. intros k. cbn [removed_in existsb].
      rewrite negb_orb, String.eqb_sym. reflexivity.
Qed.

(** C3: folding any finite sequence of additions and removals into the
    empty view leaves exactly the identities added and not removed since,
    each with the last addition written for it; a second addition for a
    present identity replaces the first; removing an absent identity, or
    removing twice, changes nothing. *)
Theorem C3_view_is_additions_minus_removals (es : list DataEvent) :
  let view := fold_events es JsMap.empty in
  (forall k ev, JsMap.get k view = Some ev <-> last_addition es k ev) /\
  (forall k, In k (JsMap.keys view) <-> exists ev, last_addition es k ev) /\
  (forall (m : ContractsMap) a a',
      contractId a = contractId a' ->
      on_create_reducer a' (on_create_reducer a m) = on_create_reducer a' m) /\
  (forall (m : ContractsMap) r,
      JsMap.get (archivedContractId r) m = None ->
      on_archive_reducer r m = m) /\
  (forall (m : ContractsMap) r,
      on_archive_reducer r (on_archive_reducer r m) = on_archive_reducer r m).
Proof.
  cbn zeta. repeat split.
  - rewrite get_fold_events. apply latest_about_last_addition.
  - rewrite get_fold_events. apply latest_about_last_addition.
  - intros Hin. apply has_in_keys in Hin. unfold JsMap.has in Hin.
    destruct (JsMap.get k _) as [ev|] eqn:E; [|discriminate].
    exists ev. rewrite get_fold_events in E.
    apply latest_about_last_addition, E.
  - intros [ev Hev]. apply has_in_keys. unfold JsMap.has.
    apply latest_about_last_addition in Hev.
    rewrite get_fold_events, Hev. reflexivity.
  - intros m a a' Hk. unfold on_create_reducer. rewrite Hk. apply set_set.
  - intros m r H. apply delete_absent, H.
  - intros m r. unfold on_archive_reducer. apply delete_absent.
    rewrite get_delete, String.eqb_refl. reflexivity.
Qed.

Lemma C3_witness :
  on_create_reducer o1' (on_create_reducer o1 [("o2", o2)])
  = on_create_reducer o1' [("o2", o2)] /\
  on_archive_reducer archive_o1 [("o2", o2)] = [("o2", o2)].
Proof.
  destruct (C3_view_is_additions_minus_removals readd_history)
    as (_ & _ & Hreplace & Habsent & _).
  split.
  - apply Hreplace. reflexivity.
  - apply Habsent. reflexivity.
Defined.

(** C8, as worded, fails: a key removed and added again is appended, so it
    no longer sits where its first addition arrived. *)
Lemma C8_readded_key_moves_to_the_end :
  JsMap.keys (fold_events readd_history JsMap.empty) = ["o2"; "o1"] /\
  first_arrival_order readd_history = ["o1"; "o2"] /\
  JsMap.keys (fold_events readd_history JsMap.empty)
  <> first_arrival_order readd_history.
Proof. repeat split. intros H. vm_compute in H. discriminate H. Qed.

(** C8, amended: after any sequence of additions and removals folded into
    the empty view, the keys are those of the additions that introduced the
    current entries (key absent on arrival, not removed since), in arrival
    order, so a key removed and added again takes the place of the later
    addition; re-adding a present key keeps its position, a new key is
    appended, a removal keeps the order of the remaining keys, and no key
    occurs twice. *)
Theorem C8_keys_follow_introducing_additions (es : list DataEvent) :
  let view := fold_events es JsMap.empty in
  JsMap.keys view = introducing_additions [] es /\
  NoDup (JsMap.keys view) /\
  (forall (m : ContractsMap) a,
      JsMap.has (contractId a) m = true ->
      JsMap.keys (on_create_reducer a m) = JsMap.keys m) /\
  (forall (m : ContractsMap) a,
      JsMap.has (contractId a) m = false ->
      JsMap.keys (on_create_reducer a m) = JsMap.keys m ++ [contractId a]) /\
  (forall (m : ContractsMap) r,
      JsMap.keys (on_archive_reducer r m)
      = filter (fun k => negb (String.eqb k (archivedContractId r)))
               (JsMap.keys m)).
Proof.
  cbn zeta. repeat split.
  - exact (keys_fold_events_split es []).
  - apply NoDup_keys_fold_events. constructor.
  - intros m a H. unfold on_create_reducer. rewrite keys_set, H. reflexivity.
  - intros m a H. unfold on_create_reducer. rewrite keys_set, H. reflexivity.
  - intros m r. apply keys_delete.
Qed.

Lemma C8_witness :
  JsMap.keys (on_create_reducer o1' [("o1", o1); ("o2", o2)]) = ["o1"; "o2"] /\
  JsMap.keys (on_create_reducer o2 [("o1", o1)]) = ["o1"; "o2"].
Proof.
  destruct (C8_keys_follow_introducing_additions readd_history)
    as (_ & _ & Hkeep & Happend & _).
  split.
  - apply (Hkeep [("o1", o1); ("o2", o2)] o1'). reflexivity.
  - apply (Happend [("o1", o1)] o2). reflexivity.
Defined.

(** ** The stream hooks *)

Ltac open_system s :=
  let cm := fresh "view" in
  let l := fresh "loading" in
  let c := fresh "connected" in
  let e := fresh "error" in
  let sr := fresh "stream" in
  let cl := fresh "cleaned" in
  let rt := fresh "timeout" in
  let w := fresh "w" in
  destruct s as [[cm l c e] [sr cl rt] w].

(** C7: a status event carrying "live" publishes connected = true and
    loading = false; any other status value publishes connected = false and
    leaves the loading flag as it was; the view and the error are not
    touched.  Both stream hooks. *)
Theorem C7_status_event (state : StreamState)
  (s : SQ.System) (m : MQ.System)
  (cfg : DamlLedgerConfig) (ps : list DamlLedgerConfig) :
  let s' := snd (SQ.handle_state state s) in
  let m' := snd (MQ.handle_state state m) in
  (state = "live" ->
   SQ.useStreamQuery (cfg :: ps) s'
   = Ok (SQ.mkResult (SQ.contractsMap (SQ.hook s)) false true
                     (SQ.error (SQ.hook s))) /\
   MQ.useMultiStreamQuery (cfg :: ps) m'
   = Ok (MQ.mkResult (MQ.multiStream (MQ.hook m)) false true
                     (MQ.error (MQ.hook m)))) /\
  (state <> "live" ->
   SQ.useStreamQuery (cfg :: ps) s'
   = Ok (SQ.mkResult (SQ.contractsMap (SQ.hook s)) (SQ.loading (SQ.hook s))
                     false (SQ.error (SQ.hook s))) /\
   MQ.useMultiStreamQuery (cfg :: ps) m'
   = Ok (MQ.mkResult (MQ.multiStream (MQ.hook m)) (MQ.loading (MQ.hook m))
                     false (MQ.error (MQ.hook m)))).
Proof.
  open_system s. open_system m. cbn zeta.
  unfold SQ.handle_state, MQ.handle_state.
  split; intros Hstate.
  - subst state. split; reflexivity.
  - destruct (String.eqb_spec state "live") as [E|_]; [contradiction|].
    split; reflexivity.
Qed.

Lemma C7_witness :
  SQ.useStreamQuery [mkConfig 0 0] (snd (SQ.handle_state "live" SQ.initial))
  = Ok (SQ.mkResult [] false true ErrNull) /\
  SQ.useStreamQuery [mkConfig 0 0]
    (snd (SQ.handle_state "connecting" SQ.initial))
  = Ok (SQ.mkResult [] true false ErrNull).
Proof.
  split.
  - apply (C7_status_event "live" SQ.initial MQ.initial (mkConfig 0 0) []).
    reflexivity.
  - apply (C7_status_event "connecting" SQ.initial MQ.initial
             (mkConfig 0 0) []).
    discriminate.
Defined.

Lemma pending_call_settle_step (s : SQ.System) rq d err :
  pending_call rq (SQ.world s) = Some d ->
  SQ.step (SQ.StreamFailed rq err) s
  = Some (bind (SQ.on_world (settle rq))
               (fun _ => SQ.setupStream_resume d (Throw err)) s).
Proof. intros H. cbn. rewrite H. reflexivity. Qed.

Lemma multi_pending_call_settle_step (m : MQ.System) rq d err :
  pending_call rq (MQ.world m) = Some d ->
  MQ.step (MQ.StreamFailed rq err) m
  = Some (bind (MQ.on_world (settle rq))
               (fun _ => MQ.setupStream_resume d (Throw err)) m).
Proof. intros H. cbn. rewrite H. reflexivity. Qed.

(** C10: when the stream call of a setup attempt fails, the failure is
    caught: the hook publishes loading = false, connected = false and the
    error string "<name>: <message>" (for a thrown value that is not an
    Error, "Failed to setup stream", resp. "Failed to setup multi-stream"),
    and the view (resp. the multi-stream) is the one published before. *)
Theorem C10_setup_failure_published (rq : Handle) (err : Thrown)
  (s : SQ.System) (m : MQ.System) (d dm : Descriptor)
  (cfg : DamlLedgerConfig) (ps : list DamlLedgerConfig) :
  pending_call rq (SQ.world s) = Some d ->
  pending_call rq (MQ.world m) = Some dm ->
  exists s' m',
    SQ.step (SQ.StreamFailed rq err) s = Some (Ok tt, s') /\
    MQ.step (MQ.StreamFailed rq err) m = Some (Ok tt, m') /\
    SQ.useStreamQuery (cfg :: ps) s'
    = Ok (SQ.mkResult (SQ.contractsMap (SQ.hook s)) false false
            (ErrString match err with
                       | ThrownError name message => name ++ ": " ++ message
                       | ThrownOther => "Failed to setup stream"
                       end)) /\
    MQ.useMultiStreamQuery (cfg :: ps) m'
    = Ok (MQ.mkResult (MQ.multiStream (MQ.hook m)) false false
            (ErrString match err with
                       | ThrownError name message => name ++ ": " ++ message
                       | ThrownOther => "Failed to setup multi-stream"
                       end)).
Proof.
  intros Hs Hm.
  rewrite (pending_call_settle_step s rq err Hs).
  rewrite (multi_pending_call_settle_step m rq err Hm).
  open_system s. open_system m.
  destruct cleaned, cleaned0; cbn; eexists; eexists;
    repeat split; reflexivity.
Qed.

Lemma C10_witness :
  exists s',
    SQ.step (SQ.StreamFailed 0 network_error)
            (snd (SQ.effect order_descriptor SQ.initial)) = Some (Ok tt, s') /\
    SQ.useStreamQuery [mkConfig 0 0] s'
    = Ok (SQ.mkResult [] false false (ErrString "Error: network down")).
Proof.
  destruct (C10_setup_failure_published 0 network_error
              (snd (SQ.effect order_descriptor SQ.initial))
              (snd (MQ.effect order_descriptor MQ.initial))
              (mkConfig 0 0) [] eq_refl eq_refl)
    as (s' & m' & Hs & _ & Hr & _).
  exists s'. split; [exact Hs | exact Hr].
Defined.

(** C9: outside a DamlLedger provider every ledger hook throws the misuse
    error as the immediate outcome of the call, whatever the hook's state,
    so calling again throws again; inside a provider none of them throws,
    and each returns what the nearest provider supplies. *)
Theorem C9_misuse_error_outside_provider (R : Type) (st : R)
  (s : SQ.System) (m : MQ.System) :
  (useDamlLedgerContext [] = Throw misuse_error /\
   useLedger [] = Throw misuse_error /\
   useReload [] = Throw misuse_error /\
   useUser [] st = Throw misuse_error /\
   useRightsAs [] st = Throw misuse_error /\
   useQuery [] st = Throw misuse_error /\
   SQ.useStreamQuery [] s = Throw misuse_error /\
   MQ.useMultiStreamQuery [] m = Throw misuse_error) /\
  (forall cfg ps,
      useDamlLedgerContext (cfg :: ps) = Ok cfg /\
      useLedger (cfg :: ps) = Ok (ledger cfg) /\
      useReload (cfg :: ps) = Ok tt /\
      useUser (cfg :: ps) st = Ok st /\
      useRightsAs (cfg :: ps) st = Ok st /\
      useQuery (cfg :: ps) st = Ok st /\
      (exists r, SQ.useStreamQuery (cfg :: ps) s = Ok r) /\
      (exists r, MQ.useMultiStreamQuery (cfg :: ps) m = Ok r)).
Proof.
  split.
  - repeat split.
  - intros cfg ps. repeat split; eexists; reflexivity.
Qed.

(** C1, as worded, fails: a live stream holding a contract reports an
    error; the view keeps the contract, the handle stays referenced and
    open, and neither a timer nor a new stream call exists, so no reconnect
    will happen. *)
Lemma C1_stream_failure_does_not_reconnect :
  exists s',
    SQ.run live_with_o1 SQ.initial = Some live_state /\
    SQ.connected (SQ.hook live_state) = true /\
    SQ.step (SQ.Error 0 connection_lost) live_state = Some (Ok tt, s') /\
    SQ.contractsMap (SQ.hook s') = [("o1", o1)] /\
    SQ.refs s' = mkRefs (Some 0) false None /\
    is_closed 0 (SQ.world s') = false /\
    w_timers (SQ.world s') = [] /\
    w_pending (SQ.world s') = [] /\
    w_calls (SQ.world s') = 1.
Proof.
  exists (snd (SQ.handle_error connection_lost live_state)).
  repeat split; vm_compute; reflexivity.
Qed.

(** C1, amended: a stream failure (the handle reporting an error), whether
    the stream was live or not, is not thrown to the consumer and shows
    only in the published result: error becomes the reported error
    ([useStreamQuery]) or its cause ([useMultiStreamQuery]) and connected
    becomes false.  The view, the loading flag, the refs, the handle and the
    timers stay as they were: no reconnect is scheduled and the view is not
    reset. *)
Theorem C1_stream_failure_is_published_only (err : CantonError)
  (s : SQ.System) (m : MQ.System)
  (cfg : DamlLedgerConfig) (ps : list DamlLedgerConfig) :
  let s' := snd (SQ.handle_error err s) in
  let m' := snd (MQ.handle_error err m) in
  fst (SQ.handle_error err s) = Ok tt /\
  fst (MQ.handle_error err m) = Ok tt /\
  SQ.useStreamQuery (cfg :: ps) s'
  = Ok (SQ.mkResult (SQ.contractsMap (SQ.hook s)) (SQ.loading (SQ.hook s))
                    false (canton err)) /\
  MQ.useMultiStreamQuery (cfg :: ps) m'
  = Ok (MQ.mkResult (MQ.multiStream (MQ.hook m)) (MQ.loading (MQ.hook m))
                    false (ce_cause err)) /\
  SQ.refs s' = SQ.refs s /\ SQ.world s' = SQ.world s /\
  MQ.refs m' = MQ.refs m /\ MQ.world m' = MQ.world m.
Proof. open_system s. open_system m. repeat split. Qed.

Lemma pending_timer_clearTimeout id w :
  pending_timer id (clearTimeout id w) = None.
Proof.
  unfold pending_timer, clearTimeout; cbn.
  induction (w_timers w) as [|[i x] l IH]; cbn; [reflexivity|].
  destruct (Nat.eqb_spec i id); cbn; [exact IH|].
  destruct (Nat.eqb_spec i id); [contradiction | exact IH].
Qed.

Lemma is_closed_stream_close h w : is_closed h (stream_close h w) = true.
Proof.
  unfold is_closed, stream_close; cbn. rewrite existsb_app. cbn.
  rewrite Nat.eqb_refl. apply orb_true_iff. right. reflexivity.
Qed.

(** C2, as worded, fails: no generation tag guards the handlers.  After the
    stream of handle 0 is stopped, and also after handle 1 has superseded
    it, a create event still delivered by handle 0 is added to the current
    view and an archive event removes from it.  The same happens when
    handle 0 is created only after its run was stopped: it is started,
    superseded by handle 1 and never closed. *)
Lemma C2_stale_event_mutates_view :
  SQ.run (live_with_o1 ++ [SQ.EffectCleanup]) SQ.initial = Some stopped_state /\
  isCleanedUpRef (SQ.refs stopped_state) = true /\
  is_closed 0 (SQ.world stopped_state) = true /\
  SQ.contractsMap (SQ.hook stopped_state) = [("o1", o1)] /\
  option_map (fun r => SQ.contractsMap (SQ.hook (snd r)))
             (SQ.step (SQ.Create 0 o2) stopped_state)
  = Some [("o1", o1); ("o2", o2)] /\
  SQ.run (live_with_o1 ++ [SQ.EffectCleanup;
                           SQ.EffectRun order_descriptor_alice;
                           SQ.StreamCreated 1]) SQ.initial
  = Some restarted_state /\
  streamRef (SQ.refs restarted_state) = Some 1 /\
  is_closed 0 (SQ.world restarted_state) = true /\
  option_map (fun r => SQ.contractsMap (SQ.hook (snd r)))
             (SQ.step (SQ.Create 0 o2) restarted_state)
  = Some [("o1", o1); ("o2", o2)] /\
  option_map (fun r => SQ.contractsMap (SQ.hook (snd r)))
             (SQ.step (SQ.Archive 0 archive_o1) restarted_state)
  = Some [] /\
  SQ.run overlapping_runs SQ.initial = Some overlapped_state /\
  streamRef (SQ.refs overlapped_state) = Some 1 /\
  is_closed 0 (SQ.world overlapped_state) = false /\
  SQ.contractsMap (SQ.hook overlapped_state) = [] /\
  option_map (fun r => SQ.contractsMap (SQ.hook (snd r)))
             (SQ.step (SQ.Create 0 o2) overlapped_state)
  = Some [("o2", o2)].
Proof. repeat split; vm_compute; reflexivity. Qed.

(** C2, amended: stopping a controller synchronously sets the cleaned-up
    flag and closes and forgets the handle the hook references, without
    touching the view or the registered listeners.  There is no generation
    tag: in every state, stopped or restarted included, a create or archive
    event that a handle with registered listeners delivers is applied to
    the current view by the plain reducer.  That no event of a stopped
    handle arrives is left to the collaborator's [close]. *)
Theorem C2_stop_closes_and_handlers_are_unguarded (s : SQ.System)
  (h : Handle) (event : CreateEvent) (gone : ArchiveEvent) :
  (exists s',
      SQ.cleanup s = (Ok tt, s') /\
      isCleanedUpRef (SQ.refs s') = true /\
      streamRef (SQ.refs s') = None /\
      (forall h0, streamRef (SQ.refs s) = Some h0 ->
                  is_closed h0 (SQ.world s') = true) /\
      SQ.contractsMap (SQ.hook s') = SQ.contractsMap (SQ.hook s) /\
      w_listeners (SQ.world s') = w_listeners (SQ.world s)) /\
  (listening h "create" (SQ.world s) = true ->
   exists s',
     SQ.step (SQ.Create h event) s = Some (Ok tt, s') /\
     SQ.contractsMap (SQ.hook s')
     = on_create_reducer event (SQ.contractsMap (SQ.hook s))) /\
  (listening h "archive" (SQ.world s) = true ->
   exists s',
     SQ.step (SQ.Archive h gone) s = Some (Ok tt, s') /\
     SQ.contractsMap (SQ.hook s')
     = on_archive_reducer gone (SQ.contractsMap (SQ.hook s))).
Proof.
  split; [|split].
  - open_system s.
    destruct stream as [h0|], timeout as [[|id]|]; cbn;
      eexists; repeat split; try discriminate;
      intros ? [= <-]; apply is_closed_stream_close.
  - intros H. cbn. rewrite H. eexists. split; reflexivity.
  - intros H. cbn. rewrite H. eexists. split; reflexivity.
Qed.

Lemma C2_witness :
  exists s',
    SQ.step (SQ.Create 0 o2) restarted_state = Some (Ok tt, s') /\
    SQ.contractsMap (SQ.hook s')
    = on_create_reducer o2 (SQ.contractsMap (SQ.hook restarted_state)).
Proof.
  apply (C2_stop_closes_and_handlers_are_unguarded restarted_state 0 o2
           archive_o1).
  reflexivity.
Defined.

(** C4 on the code: the [reload] returned to the consumer only resets the
    published state.  In every state it empties the view, sets loading and
    clears the error, and leaves the refs and the world alone: the handle
    is neither closed nor replaced and no stream call is made.  On the live
    stream of handle 0, stop followed by start closes handle 0 and issues
    call 1; so does the provider's [triggerReload], whose new ledger re-runs
    the streaming effect before the reload effect empties the view. *)
Theorem C4_reload_resets_state_only :
  (forall s, exists s',
      SQ.reload s = (Ok tt, s') /\
      SQ.hook s' = SQ.mkHook JsMap.empty true (SQ.connected (SQ.hook s))
                             ErrNull /\
      SQ.refs s' = SQ.refs s /\
      SQ.world s' = SQ.world s) /\
  (exists s_reload s_restart s_trigger,
      SQ.run [SQ.Reload] live_state = Some s_reload /\
      streamRef (SQ.refs s_reload) = Some 0 /\
      is_closed 0 (SQ.world s_reload) = false /\
      w_pending (SQ.world s_reload) = [] /\
      w_calls (SQ.world s_reload) = 1 /\
      SQ.run [SQ.EffectCleanup; SQ.EffectRun order_descriptor] live_state
      = Some s_restart /\
      streamRef (SQ.refs s_restart) = None /\
      is_closed 0 (SQ.world s_restart) = true /\
      w_pending (SQ.world s_restart) = [(1, order_descriptor)] /\
      (let cfg := contextValue (triggerReload DamlLedger_initial) in
       SQ.run [SQ.EffectCleanup; SQ.EffectRun (order_on cfg);
               SQ.ReloadEffect (reloadTrigger cfg)] live_state
       = Some s_trigger /\
       SQ.contractsMap (SQ.hook s_trigger) = JsMap.empty /\
       SQ.loading (SQ.hook s_trigger) = true /\
       streamRef (SQ.refs s_trigger) = None /\
       is_closed 0 (SQ.world s_trigger) = true /\
       w_pending (SQ.world s_trigger) = [(1, order_on cfg)])).
Proof.
  split.
  - intros s. open_system s. eexists. repeat split.
  - exists (snd (SQ.reload live_state)).
    exists (snd (bind SQ.cleanup (fun _ => SQ.effect order_descriptor)
                   live_state)).
    exists (snd (bind SQ.cleanup
                   (fun _ => bind (SQ.effect
                                     (order_on
                                        (contextValue
                                           (triggerReload
                                              DamlLedger_initial))))
                                  (fun _ => SQ.reload)) live_state)).
    repeat split; vm_compute; reflexivity.
Qed.

(** ** Reachable states are well formed *)

Lemma Forall_filter_keep {A} (P : A -> Prop) (f : A -> bool) l :
  Forall P l -> Forall P (filter f l).
Proof. intros H. apply (incl_Forall (incl_filter f l) H). Qed.

Lemma world_ok_call_stream d w : world_ok w -> world_ok (call_stream d w).
Proof.
  intros (Ht & Hp & Hl & Hs & Hc). unfold world_ok, call_stream; cbn.
  repeat split; try assumption.
  - apply Forall_app. split.
    + eapply Forall_impl; [|exact Hp]. intros x; cbn; lia.
    + repeat constructor.
  - eapply Forall_impl; [|exact Hl]. intros x; cbn; lia.
  - eapply Forall_impl; [|exact Hs]. intros x; cbn; lia.
  - eapply Forall_impl; [|exact Hc]. intros x; cbn; lia.
Qed.

Lemma world_ok_settle rq w : world_ok w -> world_ok (settle rq w).
Proof.
  intros (Ht & Hp & Hl & Hs & Hc). unfold world_ok, settle; cbn.
  repeat split; try assumption. apply Forall_filter_keep, Hp.
Qed.

Lemma world_ok_stream_on cls h w :
  h < w_calls w -> world_ok w -> world_ok (stream_on cls h w).
Proof.
  intros Hh (Ht & Hp & Hl & Hs & Hc). unfold world_ok, stream_on; cbn.
  repeat split; try assumption.
  apply Forall_app. split; [exact Hl | repeat constructor; exact Hh].
Qed.

Lemma world_ok_stream_start h w :
  h < w_calls w -> world_ok w -> world_ok (stream_start h w).
Proof.
  intros Hh (Ht & Hp & Hl & Hs & Hc). unfold world_ok, stream_start; cbn.
  repeat split; try assumption.
  apply Forall_app. split; [exact Hs | repeat constructor; exact Hh].
Qed.

Lemma world_ok_stream_close h w :
  h < w_calls w -> world_ok w -> world_ok (stream_close h w).
Proof.
  intros Hh (Ht & Hp & Hl & Hs & Hc). unfold world_ok, stream_close; cbn.
  repeat split; try assumption.
  apply Forall_app. split; [exact Hc | repeat constructor; exact Hh].
Qed.

Lemma world_ok_setTimeout d delay w :
  world_ok w -> world_ok (snd (setTimeout d delay w)).
Proof.
  intros (Ht & Hp & Hl & Hs & Hc). unfold world_ok, setTimeout; cbn.
  repeat split; try assumption.
  apply Forall_app. split.
  - eapply Forall_impl; [|exact Ht]. intros x; cbn; lia.
  - repeat constructor.
Qed.

Lemma world_ok_clearTimeout id w : world_ok w -> world_ok (clearTimeout id w).
Proof.
  intros (Ht & Hp & Hl & Hs & Hc). unfold world_ok, clearTimeout; cbn.
  repeat split; try assumption. apply Forall_filter_keep, Ht.
Qed.

Lemma pending_call_In rq w d :
  pending_call rq w = Some d -> In (rq, d) (w_pending w).
Proof.
  unfold pending_call. destruct (find _ _) as [[r d']|] eqn:E; [|discriminate].
  intros [= <-]. apply find_some in E. destruct E as [Hin Heq].
  apply Nat.eqb_eq in Heq. cbn in Heq. subst r. exact Hin.
Qed.

Lemma pending_call_below rq w d :
  world_ok w -> pending_call rq w = Some d -> rq < w_calls w.
Proof.
  intros (_ & Hp & _) H. apply pending_call_In in H.
  rewrite Forall_forall in Hp. exact (Hp _ H).
Qed.

Lemma pending_timer_In id w x :
  pending_timer id w = Some x -> In (id, x) (w_timers w).
Proof.
  unfold pending_timer. destruct (find _ _) as [[i x']|] eqn:E; [|discriminate].
  intros [= <-]. apply find_some in E. destruct E as [Hin Heq].
  apply Nat.eqb_eq in Heq. cbn in Heq. subst i. exact Hin.
Qed.

(** A timer id not handed out yet is not pending. *)
Lemma pending_timer_fresh id w :
  world_ok w -> w_timer_count w < id -> pending_timer id w = None.
Proof.
  intros (Ht & _) Hid. destruct (pending_timer id w) as [x|] eqn:E;
    [|reflexivity].
  apply pending_timer_In in E. rewrite Forall_forall in Ht.
  specialize (Ht _ E). cbn in Ht. lia.
Qed.

Lemma clearTimeout_fresh id w :
  world_ok w -> w_timer_count w < id ->
  filter (fun t => negb (Nat.eqb (fst t) id)) (w_timers w) = w_timers w.
Proof.
  intros (Ht & _) Hid. apply forallb_filter_id. apply forallb_forall.
  intros t Hin. rewrite Forall_forall in Ht. specialize (Ht _ Hin).
  apply negb_true_iff, Nat.eqb_neq. lia.
Qed.

(** A handle number not used by any call yet is unknown to the world. *)
Lemma fresh_handle_unknown w :
  world_ok w -> ~ known_handle (w_calls w) w.
Proof.
  intros (_ & Hp & Hl & Hs & Hc) [H|[H|[H|H]]].
  - apply in_map_iff in H. destruct H as (p & Hp1 & Hp2).
    rewrite Forall_forall in Hp. specialize (Hp _ Hp2). cbn in Hp. lia.
  - apply in_map_iff in H. destruct H as (p & Hp1 & Hp2).
    rewrite Forall_forall in Hl. specialize (Hl _ Hp2). cbn in Hl. lia.
  - rewrite Forall_forall in Hs. specialize (Hs _ H). cbn in Hs. lia.
  - rewrite Forall_forall in Hc. specialize (Hc _ H). cbn in Hc. lia.
Qed.

Arguments call_stream : simpl never.
Arguments settle : simpl never.
Arguments stream_on : simpl never.
Arguments stream_start : simpl never.
Arguments stream_close : simpl never.
Arguments setTimeout : simpl never.
Arguments clearTimeout : simpl never.
Arguments pending_call : simpl never.
Arguments pending_timer : simpl never.
Arguments listening : simpl never.

Create HintDb world.
#[local] Hint Resolve world_ok_call_stream world_ok_settle world_ok_stream_on
  world_ok_stream_start world_ok_stream_close world_ok_setTimeout
  world_ok_clearTimeout : world.

Ltac outcome H :=
  match type of H with
  | Some ?X = Some (?r, ?s) =>
      let E := fresh "E" in
      let H1 := fresh "Hout" in
      let H2 := fresh "Hsys" in
      assert (E : X = (r, s)) by congruence;
      pose proof (f_equal fst E) as H1;
      pose proof (f_equal snd E) as H2;
      clear H E; cbn in H1, H2; subst r s
  end.

Ltac refs_goal Hr :=
  unfold refs_ok, call_stream, settle, stream_on, stream_start,
    stream_close, setTimeout, clearTimeout in *;
  cbn in *;
  let Hr1 := fresh "Hstream" in
  let Hr2 := fresh "Htimer" in
  destruct Hr as [Hr1 Hr2];
  let Q := fresh "Q" in
  split; intros ? Q;
  first [ discriminate Q
        | injection Q as <-; first [lia | split; lia]
        | specialize (Hr1 _ Q); lia
        | specialize (Hr2 _ Q); first [lia | split; lia] ].

Lemma step_well_formed e s r s' :
  well_formed s -> SQ.step e s = Some (r, s') ->
  r = Ok tt /\ well_formed s'.
Proof.
  unfold well_formed.
  intros [Hw Hr] H. open_system s. cbn [SQ.world SQ.refs] in Hw, Hr.
  destruct e; cbn in H.
  - (* EffectRun *)
    outcome H. split; [reflexivity|]. cbn. split; [auto with world|].
    refs_goal Hr.
  - (* EffectCleanup *)
    assert (Hh : forall h0, stream = Some h0 -> h0 < w_calls w)
      by (intros h0 E; apply Hr; exact E).
    destruct stream as [h0|], timeout as [[|id]|]; outcome H;
      (split; [reflexivity|]); cbn; (split; [|refs_goal Hr]);
      try (apply world_ok_stream_close; [exact (Hh h0 eq_refl)|]);
      auto with world.
  - (* StreamCreated *)
    destruct (pending_call rq w) as [d|] eqn:E; [|discriminate].
    pose proof (@pending_call_below rq w d Hw E) as Hrq.
    outcome H. split; [reflexivity|]. cbn. split; [|refs_goal Hr].
    apply world_ok_stream_start; [exact Hrq|].
    repeat (apply world_ok_stream_on; [exact Hrq|]).
    auto with world.
  - (* StreamFailed *)
    destruct (pending_call rq w) as [d|] eqn:E; [|discriminate].
    destruct cleaned; outcome H; (split; [reflexivity|]); cbn;
      (split; [|refs_goal Hr]).
    + auto with world.
    + apply (world_ok_setTimeout d 5000%N (world_ok_settle rq Hw)).
  - (* TimerFired *)
    destruct (pending_timer id w) as [[delay d]|] eqn:E; [|discriminate].
    destruct cleaned; outcome H; (split; [reflexivity|]); cbn;
      (split; [|refs_goal Hr]); auto with world.
  - destruct (listening h "create" w); [|discriminate].
    outcome H. split; [reflexivity|]. cbn. split; assumption.
  - destruct (listening h "archive" w); [|discriminate].
    outcome H. split; [reflexivity|]. cbn. split; assumption.
  - destruct (listening h "error" w); [|discriminate].
    outcome H. split; [reflexivity|]. cbn. split; assumption.
  - destruct (listening h "state" w); [|discriminate].
    destruct (String.eqb state "live"); outcome H;
      (split; [reflexivity|]); cbn; split; assumption.
  - outcome H. split; [reflexivity|]. cbn. split; assumption.
  - destruct reloadTrigger0 as [|n]; outcome H;
      (split; [reflexivity|]); cbn; split; assumption.
Qed.

Lemma run_well_formed es : forall s s',
  well_formed s -> SQ.run es s = Some s' -> well_formed s'.
Proof.
  induction es as [|e es IH]; intros s s' Hs H; cbn in H.
  - injection H as <-. exact Hs.
  - destruct (SQ.step e s) as [[[[]|t] s1]|] eqn:E; try discriminate.
    apply (IH s1 s'); [|exact H].
    exact (proj2 (@step_well_formed e s _ _ Hs E)).
Qed.

Lemma initial_well_formed : well_formed SQ.initial.
Proof.
  repeat split; cbn; try constructor; discriminate.
Qed.

Lemma reachable_well_formed s : reachable s -> well_formed s.
Proof.
  intros [es H]. exact (@run_well_formed es _ _ initial_well_formed H).
Qed.

Lemma find_app_none {A} (f : A -> bool) l l' :
  find f l = None -> find f (l ++ l') = find f l'.
Proof.
  induction l as [|x l IH]; cbn; [reflexivity|].
  destruct (f x); [discriminate | exact IH].
Qed.

(** The timer [setTimeout] has just handed out is pending with its delay
    and closure, and clearing it restores the timer table. *)
Lemma pending_timer_scheduled d delay w :
  world_ok w ->
  pending_timer (S (w_timer_count w)) (snd (setTimeout d delay w))
  = Some (delay, d).
Proof.
  intros Hw. pose proof (pending_timer_fresh (id := S (w_timer_count w)) Hw
                           (Nat.lt_succ_diag_r _)) as Hfresh.
  unfold pending_timer, setTimeout in *. cbn [snd w_timers].
  destruct (find _ (w_timers w)) eqn:E; [discriminate|].
  rewrite (find_app_none _ _ _ E). cbn. rewrite Nat.eqb_refl. reflexivity.
Qed.

Lemma timers_schedule_then_clear d delay w :
  world_ok w ->
  w_timers (clearTimeout (S (w_timer_count w)) (snd (setTimeout d delay w)))
  = w_timers w.
Proof.
  intros Hw. unfold clearTimeout, setTimeout. cbn [snd w_timers fst].
  rewrite filter_app, (clearTimeout_fresh Hw (Nat.lt_succ_diag_r _)).
  cbn. rewrite Nat.eqb_refl. cbn. apply app_nil_r.
Qed.

Lemma pending_timer_stream_close id h w :
  pending_timer id (stream_close h w) = pending_timer id w.
Proof. reflexivity. Qed.

(** Stop cancels the timer the ref records, whatever else the state holds. *)
Lemma cleanup_cancels_recorded_timer s n :
  reconnectTimeoutRef (SQ.refs s) = Some (S n) ->
  exists s',
    SQ.step SQ.EffectCleanup s = Some (Ok tt, s') /\
    SQ.step (SQ.TimerFired (S n)) s' = None.
Proof.
  intros Href. open_system s. cbn in Href. subst timeout.
  destruct stream as [h0|].
  - exists (SQ.mkSystem (SQ.mkHook view loading false error)
                        (mkRefs None true None)
                        (stream_close h0 (clearTimeout (S n) w))).
    split; [reflexivity|]. cbn [SQ.step SQ.world].
    rewrite pending_timer_stream_close, pending_timer_clearTimeout.
    reflexivity.
  - exists (SQ.mkSystem (SQ.mkHook view loading false error)
                        (mkRefs None true None)
                        (clearTimeout (S n) w)).
    split; [reflexivity|]. cbn [SQ.step SQ.world].
    rewrite pending_timer_clearTimeout. reflexivity.
Qed.



(** ** One lifetime: stop leaves nothing behind *)

Ltac expose_world H :=
  unfold SQ.step, SQ.reload_effect, pending_call, pending_timer, listening,
    settle, call_stream, stream_on, stream_start, stream_close, setTimeout,
    clearTimeout in H;
  cbn in H.

Ltac pick_phase :=
  split; [reflexivity|]; split; [reflexivity|]; split; [reflexivity|];
  first [ left; do 2 eexists; repeat split; reflexivity
        | right; left; do 2 eexists; repeat split; reflexivity
        | right; right; eexists; repeat split; reflexivity ].


Lemma in_lifetime_step e s r s' :
  lifecycle_event e = false ->
  in_lifetime s -> SQ.step e s = Some (r, s') ->
  r = Ok tt /\ in_lifetime s'.
Proof.
  unfold in_lifetime, connecting, waiting, streaming.
  intros He (Hflag & Hclosed & Hphase) H. open_system s.
  destruct w as [calls pending listeners started closed count timers].
  cbn [SQ.world SQ.refs streamRef reconnectTimeoutRef isCleanedUpRef
       w_pending w_timers w_started w_closed] in *.
  subst cleaned closed.
  destruct e as [| |rq|rq err|[|id]|h ev|h ev|h err|h st| |[|n]];
    try discriminate He; clear He;
    (destruct Hphase as [(rq0 & d0 & -> & -> & -> & ->)
                        |[(id0 & [delay d1] & -> & -> & -> & -> & ->)
                         |(h0 & -> & -> & -> & ->)]]);
    expose_world H; try discriminate H.
  all: repeat match type of H with
         | context [Nat.eqb ?a ?b] =>
             destruct (Nat.eqb_spec a b); [subst|]; cbn in H
         | (if ?c then _ else _) = _ => destruct c; cbn in H
         | context [String.eqb ?a ?b] => destruct (String.eqb a b); cbn in H
         end.
  all: try discriminate H.
  all: rewrite ?Nat.eqb_refl in H; cbn in H.
  all: outcome H.
  all: pick_phase.
Qed.

Lemma in_lifetime_run es : forall s s',
  within_lifetime es = true -> in_lifetime s -> SQ.run es s = Some s' ->
  in_lifetime s'.
Proof.
  induction es as [|e es IH]; intros s s' Hes Hs H; cbn in H.
  - injection H as <-. exact Hs.
  - cbn in Hes. apply andb_true_iff in Hes. destruct Hes as [He Hes].
    apply negb_true_iff in He.
    destruct (SQ.step e s) as [[[[]|t] s1]|] eqn:E; try discriminate.
    apply (IH s1 s' Hes); [|exact H].
    exact (proj2 (@in_lifetime_step e s _ _ He Hs E)).
Qed.

Lemma in_lifetime_start d : in_lifetime (snd (SQ.effect d SQ.initial)).
Proof.
  split; [reflexivity|]. split; [reflexivity|].
  left. exists 0, d. repeat split.
Qed.

(** At the end of a lifetime, stop leaves no timer pending and no started
    stream open. *)
Lemma stop_ends_lifetime s :
  in_lifetime s ->
  exists s',
    SQ.cleanup s = (Ok tt, s') /\
    w_timers (SQ.world s') = [] /\
    forall h, In h (w_started (SQ.world s')) -> In h (w_closed (SQ.world s')).
Proof.
  unfold in_lifetime, connecting, waiting, streaming.
  intros (Hflag & Hclosed & Hphase). open_system s.
  destruct w as [calls pending listeners started closed count timers].
  cbn [SQ.world SQ.refs streamRef reconnectTimeoutRef isCleanedUpRef
       w_pending w_timers w_started w_closed] in *.
  subst cleaned closed.
  destruct Hphase as [(rq0 & d0 & -> & -> & -> & ->)
                     |[(id0 & x0 & -> & -> & -> & -> & ->)
                      |(h0 & -> & -> & -> & ->)]].
  - destruct timeout as [[|id]|]; eexists; (split; [reflexivity|]);
      split; [reflexivity | intros h [] | reflexivity | intros h []
             | reflexivity | intros h []].
  - eexists. split; [reflexivity|].
    unfold clearTimeout. cbn. rewrite Nat.eqb_refl. cbn.
    split; [reflexivity | intros h []].
  - destruct timeout as [[|id]|]; eexists; (split; [reflexivity|]);
      split; try reflexivity; intros h Hh; exact Hh.
Qed.



(** * Further properties of the stream hooks *)

Lemma view_after_step e s r s' :
  SQ.step e s = Some (r, s') ->
  SQ.contractsMap (SQ.hook s')
  = if resets_view e then JsMap.empty
    else fold_events (data_of e) (SQ.contractsMap (SQ.hook s)).
Proof.
  intros H. open_system s.
  destruct e as [d| |rq|rq err|id|h ev|h ev|h err|h st| |[|n]];
    expose_world H.
  all: repeat match type of H with
         | match ?c with _ => _ end = _ => destruct c; cbn in H
         | context [if ?c then _ else _] => destruct c; cbn in H
         end.
  all: try discriminate H.
  all: outcome H; reflexivity.
Qed.

Lemma view_after_run es : forall s s' base delivered,
  SQ.contractsMap (SQ.hook s) = fold_events delivered base ->
  SQ.run es s = Some s' ->
  SQ.contractsMap (SQ.hook s')
  = fold_events (snd (view_history es base delivered))
                (fst (view_history es base delivered)).
Proof.
  induction es as [|e es IH]; intros s s' base delivered Hs H; cbn in H.
  - injection H as <-. exact Hs.
  - destruct (SQ.step e s) as [[[[]|t] s1]|] eqn:E; try discriminate.
    pose proof (view_after_step e s E) as Hv. cbn [view_history].
    destruct (resets_view e).
    + apply (IH s1 s'); [|exact H]. rewrite Hv. reflexivity.
    + apply (IH s1 s'); [|exact H]. rewrite Hv, Hs.
      unfold fold_events. rewrite fold_left_app. reflexivity.
Qed.

(** X1: whatever happens to a [useStreamQuery] hook, its view is the fold
    of the create and archive events delivered since the last view reset
    ([reload], or the reload effect with a positive trigger), started from
    the empty map, or from the earlier view when there was no reset.
    Stopping, restarting with another descriptor, setup failures, timers,
    error and status events never touch it. *)
Theorem X1_view_is_fold_of_delivered_events (es : list SQ.Event)
  (s s' : SQ.System) :
  SQ.run es s = Some s' ->
  SQ.contractsMap (SQ.hook s')
  = fold_events (snd (view_history es (SQ.contractsMap (SQ.hook s)) []))
                (fst (view_history es (SQ.contractsMap (SQ.hook s)) [])).
Proof.
  intros H.
  exact (@view_after_run es s s' (SQ.contractsMap (SQ.hook s)) [] eq_refl H).
Qed.

Lemma X1_witness :
  SQ.contractsMap (SQ.hook restarted_state) = [("o1", o1)].
Proof.
  apply (@X1_view_is_fold_of_delivered_events
           (live_with_o1 ++ [SQ.EffectCleanup;
                             SQ.EffectRun order_descriptor_alice;
                             SQ.StreamCreated 1]) SQ.initial restarted_state).
  reflexivity.
Defined.

Ltac split_guards H :=
  repeat match type of H with
         | match ?c with _ => _ end = _ => destruct c; cbn in H
         | context [if ?c then _ else _] => destruct c; cbn in H
         end;
  try discriminate H.

(** X2: no event makes a stream hook throw.  In every state, an event that
    can happen ends normally: a rejected stream call and anything thrown
    while wiring the stream are caught by [setupStream], the listeners and
    [reload] only set state, and the cleanup only calls [close] on a stream
    it holds. *)
Theorem X2_stream_hooks_never_throw :
  (forall e s r s', SQ.step e s = Some (r, s') -> r = Ok tt) /\
  (forall e m r m', MQ.step e m = Some (r, m') -> r = Ok tt).
Proof.
  split.
  - intros e s r s' H. open_system s.
    destruct e as [d| |rq|rq err|id|h ev|h ev|h err|h st| |[|n]];
      expose_world H; split_guards H; outcome H; reflexivity.
  - intros e m r m' H. open_system m.
    destruct e as [d| |rq|rq err|id|h err|h st| |[|n]];
      unfold MQ.step, MQ.reload_effect, pending_call, pending_timer,
        listening in H; cbn in H; split_guards H; outcome H; reflexivity.
Qed.

Lemma X2_witness :
  fst (SQ.cleanup SQ.initial) = Ok tt.
Proof.
  apply (proj1 X2_stream_hooks_never_throw SQ.EffectCleanup SQ.initial
               (fst (SQ.cleanup SQ.initial)) (snd (SQ.cleanup SQ.initial))).
  reflexivity.
Defined.

Lemma quiet_step e s r s' :
  isCleanedUpRef (SQ.refs s) = true -> is_effect_run e = false ->
  SQ.step e s = Some (r, s') ->
  isCleanedUpRef (SQ.refs s') = true /\
  w_calls (SQ.world s') = w_calls (SQ.world s) /\
  w_timer_count (SQ.world s') = w_timer_count (SQ.world s) /\
  incl (w_timers (SQ.world s')) (w_timers (SQ.world s)) /\
  incl (w_pending (SQ.world s')) (w_pending (SQ.world s)).
Proof.
  intros Hflag He H. open_system s. cbn in Hflag. subst cleaned.
  destruct w as [calls pending listeners started closed count timers].
  destruct e as [d| |rq|rq err|id|h ev|h ev|h err|h st| |[|n]];
    try discriminate He; clear He;
    destruct stream as [h0|], timeout as [[|t0]|];
    expose_world H; split_guards H; outcome H;
    unfold settle, call_stream, stream_on, stream_start, stream_close,
      setTimeout, clearTimeout; cbn;
    repeat split;
    first [ apply incl_refl | apply incl_filter ].
Qed.

(** X3: once the effect of [useStreamQuery] is cleaned up it stays quiet
    until the effect runs again: whatever settles, fires or is delivered
    meanwhile, no stream call is made, no timer is set, and the pending
    calls and timers can only go away.  A timer left over fires into the
    early return of [setupStream]; a failing call finds the flag set and
    schedules nothing. *)
Theorem X3_quiet_after_cleanup (es : list SQ.Event) : forall s s',
  isCleanedUpRef (SQ.refs s) = true ->
  existsb is_effect_run es = false ->
  SQ.run es s = Some s' ->
  isCleanedUpRef (SQ.refs s') = true /\
  w_calls (SQ.world s') = w_calls (SQ.world s) /\
  w_timer_count (SQ.world s') = w_timer_count (SQ.world s) /\
  incl (w_timers (SQ.world s')) (w_timers (SQ.world s)) /\
  incl (w_pending (SQ.world s')) (w_pending (SQ.world s)).
Proof.
  induction es as [|e es IH]; intros s s' Hflag Hes H; cbn in H.
  - injection H as <-.
    split; [exact Hflag|]. do 2 (split; [reflexivity|]).
    split; apply incl_refl.
  - cbn in Hes. apply orb_false_iff in Hes. destruct Hes as [He Hes].
    destruct (SQ.step e s) as [[[[]|t] s1]|] eqn:E; try discriminate.
    destruct (quiet_step e s Hflag He E) as (F1 & C1 & T1 & I1 & P1).
    destruct (IH s1 s' F1 Hes H) as (F2 & C2 & T2 & I2 & P2).
    repeat split; try congruence.
    + exact (incl_tran I2 I1).
    + exact (incl_tran P2 P1).
Qed.

Lemma X3_witness :
  w_calls (SQ.world failed_after_stop) = 1 /\
  incl (w_timers (SQ.world failed_after_stop)) [].
Proof.
  destruct (@X3_quiet_after_cleanup [SQ.StreamFailed 0 network_error]
              stopped_while_connecting failed_after_stop
              eq_refl eq_refl eq_refl) as (_ & Hcalls & _ & Htimers & _).
  split; [exact Hcalls | exact Htimers].
Defined.

Lemma pending_call_settle rq w : pending_call rq (settle rq w) = None.
Proof.
  unfold pending_call, settle; cbn.
  induction (w_pending w) as [|[i x] l IH]; cbn; [reflexivity|].
  destruct (Nat.eqb_spec i rq); cbn; [exact IH|].
  destruct (Nat.eqb_spec i rq); [contradiction | exact IH].
Qed.

Lemma listening_stream_on_here cls h w :
  listening h cls (stream_on cls h w) = true.
Proof.
  unfold listening, stream_on; cbn. rewrite existsb_app. cbn.
  rewrite Nat.eqb_refl, String.eqb_refl. apply orb_true_iff. right.
  reflexivity.
Qed.

Lemma listening_stream_on_keep cls cls' h h' w :
  listening h cls w = true -> listening h cls (stream_on cls' h' w) = true.
Proof.
  unfold listening, stream_on; cbn. rewrite existsb_app. intros ->.
  reflexivity.
Qed.

Lemma listening_stream_start cls h h' w :
  listening h cls (stream_start h' w) = listening h cls w.
Proof. reflexivity. Qed.

(** X4: when a pending stream call of [useStreamQuery] succeeds, the hook
    stores the stream in [streamRef], registers the create, archive, error
    and state listeners on it and starts it; the published state is left as
    it is (loading stays set until a "live" status arrives) and nothing is
    closed.  The cleaned-up flag is not consulted: a stream created after
    the cleanup is wired and started all the same. *)
Theorem X4_setup_success_wires_and_starts (s : SQ.System) (rq : Handle)
  (d : Descriptor) :
  pending_call rq (SQ.world s) = Some d ->
  exists s',
    SQ.step (SQ.StreamCreated rq) s = Some (Ok tt, s') /\
    SQ.hook s' = SQ.hook s /\
    SQ.refs s' = mkRefs (Some rq) (isCleanedUpRef (SQ.refs s))
                        (reconnectTimeoutRef (SQ.refs s)) /\
    (forall cls, In cls stream_event_classes ->
                 listening rq cls (SQ.world s') = true) /\
    w_started (SQ.world s') = w_started (SQ.world s) ++ [rq] /\
    w_closed (SQ.world s') = w_closed (SQ.world s) /\
    w_timers (SQ.world s') = w_timers (SQ.world s) /\
    w_calls (SQ.world s') = w_calls (SQ.world s) /\
    pending_call rq (SQ.world s') = None.
Proof.
  intros Hp. open_system s. cbn [SQ.world SQ.refs SQ.hook] in *.
  exists (SQ.mkSystem
            (SQ.mkHook view loading connected error)
            (mkRefs (Some rq) cleaned timeout)
            (stream_start rq
               (stream_on "state" rq
                  (stream_on "error" rq
                     (stream_on "archive" rq
                        (stream_on "create" rq (settle rq w))))))).
  split; [cbn [SQ.step SQ.world]; rewrite Hp; reflexivity|].
  do 2 (split; [reflexivity|]).
  split.
  { cbn [SQ.world]. intros cls [<-|[<-|[<-|[<-|[]]]]];
      rewrite listening_stream_start;
      repeat first [ apply listening_stream_on_here
                   | apply listening_stream_on_keep ]. }
  do 4 (split; [reflexivity|]).
  cbn [SQ.world]. exact (pending_call_settle rq w).
Qed.

Lemma X4_witness :
  exists s',
    SQ.step (SQ.StreamCreated 0) stopped_while_connecting = Some (Ok tt, s') /\
    SQ.refs s' = mkRefs (Some 0) true None /\
    w_started (SQ.world s') = [0] /\
    w_closed (SQ.world s') = [].
Proof.
  destruct (@X4_setup_success_wires_and_starts stopped_while_connecting 0
              order_descriptor eq_refl)
    as (s' & Hstep & _ & Hrefs & _ & Hstarted & Hclosed & _).
  exists s'. repeat split; assumption.
Defined.

Lemma lifetime_counts_step d e s r s' :
  lifecycle_event e = false ->
  in_lifetime s -> retries_carry d s -> SQ.step e s = Some (r, s') ->
  retries_carry d s' /\
  w_calls (SQ.world s')
  = w_calls (SQ.world s) + count_timers_fired [e] /\
  w_timer_count (SQ.world s')
  = w_timer_count (SQ.world s) + count_failures [e].
Proof.
  unfold in_lifetime, connecting, waiting, streaming, retries_carry.
  intros He (Hflag & Hclosed & Hphase) [Hcalls Htimers] H. open_system s.
  destruct w as [calls pending listeners started closed count timers].
  cbn [SQ.world SQ.refs streamRef reconnectTimeoutRef isCleanedUpRef
       w_pending w_timers w_started w_closed] in *.
  subst cleaned closed.
  destruct e as [| |rq|rq err|[|id]|h ev|h ev|h err|h st| |[|n]];
    try discriminate He; clear He;
    (destruct Hphase as [(rq0 & d0 & -> & -> & -> & ->)
                        |[(id0 & [delay d1] & -> & -> & -> & -> & ->)
                         |(h0 & -> & -> & -> & ->)]]);
    expose_world H; try discriminate H.
  all: repeat match type of H with
         | context [Nat.eqb ?a ?b] =>
             destruct (Nat.eqb_spec a b); [subst|]; cbn in H
         | (if ?c then _ else _) = _ => destruct c; cbn in H
         | context [String.eqb ?a ?b] => destruct (String.eqb a b); cbn in H
         end.
  all: try discriminate H.
  all: rewrite ?Nat.eqb_refl in H; cbn in H.
  all: outcome H.
  all: cbn; rewrite ?Nat.add_0_r, ?Nat.add_1_r.
  all: repeat split; try assumption; try constructor.
  all: repeat match goal with
         | H : Forall _ (_ :: _) |- _ => inversion H; subst; clear H
         end; cbn in *; try congruence; try constructor.
Qed.

Lemma lifetime_counts_run d es : forall s s',
  within_lifetime es = true ->
  in_lifetime s -> retries_carry d s -> SQ.run es s = Some s' ->
  retries_carry d s' /\
  w_calls (SQ.world s') = w_calls (SQ.world s) + count_timers_fired es /\
  w_timer_count (SQ.world s')
  = w_timer_count (SQ.world s) + count_failures es.
Proof.
  induction es as [|e es IH]; intros s s' Hes Hs Hd H; cbn in H.
  - injection H as <-. cbn. rewrite !Nat.add_0_r. auto.
  - cbn in Hes. apply andb_true_iff in Hes. destruct Hes as [He Hes].
    apply negb_true_iff in He.
    destruct (SQ.step e s) as [[[[]|t] s1]|] eqn:E; try discriminate.
    destruct (@lifetime_counts_step d e s _ _ He Hs Hd E)
      as (Hd1 & Hc1 & Ht1).
    pose proof (proj2 (@in_lifetime_step e s _ _ He Hs E)) as Hs1.
    destruct (IH s1 s' Hes Hs1 Hd1 H) as (Hd2 & Hc2 & Ht2).
    split; [exact Hd2|].
    unfold count_timers_fired, count_failures in *. cbn in *.
    destruct e; cbn in *; lia.
Qed.



(** X6: a reload triggered through the provider restarts every stream
    hook.  [triggerReload] raises [reloadTrigger] above zero and makes the
    provider build a new ledger, so the streaming effect is cleaned up and
    run again and the reload effect resets the state: whatever the state
    was, the referenced stream is closed and forgotten, one new stream call
    is pending, the view (resp. the published multi-stream) is empty,
    loading is set, connected and error are cleared.  On the first render,
    with [reloadTrigger] zero, the reload effect changes nothing. *)
Theorem X6_trigger_reload_restarts (p : DamlLedgerState) (d : Descriptor)
  (s : SQ.System) (m : MQ.System) :
  let cfg := contextValue (triggerReload p) in
  ledger cfg <> ledger (contextValue p) /\
  (exists s',
      SQ.run [SQ.EffectCleanup; SQ.EffectRun d;
              SQ.ReloadEffect (reloadTrigger cfg)] s = Some s' /\
      SQ.hook s' = SQ.mkHook JsMap.empty true false ErrNull /\
      SQ.refs s' = mkRefs None false
                     (if truthy_number (reconnectTimeoutRef (SQ.refs s))
                      then None else reconnectTimeoutRef (SQ.refs s)) /\
      (forall h, streamRef (SQ.refs s) = Some h ->
                 is_closed h (SQ.world s') = true) /\
      w_pending (SQ.world s')
      = w_pending (SQ.world s) ++ [(w_calls (SQ.world s), d)]) /\
  (exists m',
      MQ.run [MQ.EffectCleanup; MQ.EffectRun d;
              MQ.ReloadEffect (reloadTrigger cfg)] m = Some m' /\
      MQ.hook m' = MQ.mkHook None true false ErrNull /\
      (forall h, streamRef (MQ.refs m) = Some h ->
                 is_closed h (MQ.world m') = true) /\
      w_pending (MQ.world m')
      = w_pending (MQ.world m) ++ [(w_calls (MQ.world m), d)]) /\
  SQ.run [SQ.ReloadEffect (reloadTrigger (contextValue DamlLedger_initial))] s
  = Some s /\
  MQ.run [MQ.ReloadEffect (reloadTrigger (contextValue DamlLedger_initial))] m
  = Some m.
Proof.
  cbn zeta. cbn [contextValue triggerReload reloadTrigger ledger
                 dl_reloadTrigger dl_ledger].
  rewrite Nat.add_1_r.
  split; [apply Nat.neq_succ_diag_l|].
  split; [|split; [|split]].
  - open_system s.
    destruct stream as [h0|], timeout as [[|id]|]; cbn;
      eexists; repeat split; try discriminate;
      intros ? [= <-]; apply is_closed_stream_close.
  - open_system m.
    destruct stream as [h0|], timeout as [[|id]|]; cbn;
      eexists; repeat split; try discriminate;
      intros ? [= <-]; apply is_closed_stream_close.
  - destruct s as [[] [] ?]; reflexivity.
  - destruct m as [[] [] ?]; reflexivity.
Qed.

Lemma X6_witness :
  exists s',
    SQ.run [SQ.EffectCleanup; SQ.EffectRun order_descriptor;
            SQ.ReloadEffect
              (reloadTrigger (contextValue (triggerReload DamlLedger_initial)))]
           live_state = Some s' /\
    is_closed 0 (SQ.world s') = true.
Proof.
  destruct (X6_trigger_reload_restarts DamlLedger_initial order_descriptor
              live_state MQ.initial)
    as (_ & (s' & Hrun & _ & _ & Hclosed & _) & _).
  exists s'. split; [exact Hrun | exact (Hclosed 0 eq_refl)].
Defined.

Lemma in_map_fst_filter {B} (f : nat * B -> bool) h (l : list (nat * B)) :
  In h (map fst (filter f l)) -> In h (map fst l).
Proof.
  intros H. apply in_map_iff in H. destruct H as (p & <- & Hp).
  apply filter_In in Hp. apply in_map. exact (proj1 Hp).
Qed.

Lemma not_in_settled rq {B} (l : list (nat * B)) :
  ~ In rq (map fst (filter (fun p => negb (Nat.eqb (fst p) rq)) l)).
Proof.
  intros H. apply in_map_iff in H. destruct H as (p & <- & Hp).
  apply filter_In in Hp. destruct Hp as [_ Hp].
  rewrite Nat.eqb_refl in Hp. discriminate Hp.
Qed.

Ltac multi_finish :=
  unfold call_stream, settle, stream_on, stream_start, stream_close,
    setTimeout, clearTimeout, listening in *;
  cbn in *;
  repeat match goal with
         | |- _ /\ _ => split
         | |- forall _, _ => intro
         | |- ~ _ => intro
         | H : Some _ = Some _ |- _ => injection H as H; subst
         | H : None = Some _ |- _ => discriminate H
         | H : In _ (map fst (_ ++ _)) |- _ =>
             rewrite map_app in H; cbn in H
         | H : In _ (_ ++ _) |- _ => apply in_app_iff in H; cbn in H
         | H : _ \/ _ |- _ => destruct H
         | H : False |- _ => destruct H
         | H : In _ (map fst (filter _ _)) |- _ =>
             first [ exact (not_in_settled _ _ H)
                   | apply in_map_fst_filter in H ]
         end.

Ltac use_handles Hpend Hclosed :=
  repeat match goal with
         | H : In ?h (map fst ?l) |- _ =>
             lazymatch goal with
             | _ : ~ In h _ |- _ => fail
             | _ => destruct (Hpend _ H)
             end
         | H : In ?h ?l |- _ =>
             lazymatch goal with
             | _ : h < _ |- _ => fail
             | _ => pose proof (Hclosed _ H)
             end
         end.

Lemma multi_handles_step e m r m' :
  multi_handles_ok m -> MQ.step e m = Some (r, m') -> multi_handles_ok m'.
Proof.
  unfold multi_handles_ok.
  intros (Hpub & Href & Hpend & Hclosed) H. open_system m.
  destruct w as [calls pending listeners started closed count timers].
  cbn [MQ.world MQ.refs MQ.hook MQ.multiStream streamRef w_pending w_closed
       w_started w_calls] in *.
  destruct stream as [h0|];
    [destruct (Href h0 eq_refl) as (R1 & R2 & R3 & R4 & R5 & R6)|];
    clear Href;
    (destruct view as [v|];
     [specialize (Hpub v eq_refl); try discriminate Hpub;
      injection Hpub as <-|clear Hpub]).
  all: destruct e as [d| |rq|rq err|id|h err|h st| |[|n]];
    unfold MQ.step, MQ.reload_effect in H; cbn in H.
  all: try (destruct (pending_call rq _) as [d|] eqn:E; [|discriminate H];
            apply pending_call_In, (in_map fst) in E; cbn in E;
            destruct (Hpend _ E) as [Hrq1 Hrq2]).
  all: try (destruct (pending_timer id _) as [[delay d]|];
            [|discriminate H]).
  all: try (destruct timeout as [[|t0]|]; cbn in H);
    split_guards H; outcome H; multi_finish.
  all: try reflexivity.
  all: try (rewrite !existsb_app; cbn; rewrite ?Nat.eqb_refl; cbn;
            rewrite ?orb_true_r; reflexivity).
  all: try (apply in_app_iff; right; left; reflexivity).
  all: use_handles Hpend Hclosed.
  all: try solve [intuition (try lia; try congruence)].
Qed.

Lemma multi_handles_run es : forall m m',
  multi_handles_ok m -> MQ.run es m = Some m' -> multi_handles_ok m'.
Proof.
  induction es as [|e es IH]; intros m m' Hm H; cbn in H.
  - injection H as <-. exact Hm.
  - destruct (MQ.step e m) as [[[[]|t] m1]|] eqn:E; try discriminate.
    exact (IH m1 m' (@multi_handles_step e m _ _ Hm E) H).
Qed.

Lemma multi_handles_initial : multi_handles_ok MQ.initial.
Proof. repeat split; cbn in *; try discriminate; contradiction. Qed.

Lemma is_closed_false h w : ~ In h (w_closed w) -> is_closed h w = false.
Proof.
  unfold is_closed. intros Hn.
  destruct (existsb (Nat.eqb h) (w_closed w)) eqn:E; [|reflexivity].
  apply existsb_exists in E. destruct E as (x & Hx & Heq).
  apply Nat.eqb_eq in Heq. subst x. contradiction.
Qed.

(** X7: the multi-stream that [useMultiStreamQuery] publishes is never a
    stale one.  In every state the hook can reach, a published non-null
    [multiStream] is the stream [streamRef] holds; the hook has started it,
    has registered its state and error listeners on it, and has not closed
    it.  (The cleanup and [reload] publish null in the same step in which
    they close or drop it.) *)
Theorem X7_published_multistream_is_current (m : MQ.System) (h : Handle) :
  multi_reachable m ->
  MQ.multiStream (MQ.hook m) = Some h ->
  streamRef (MQ.refs m) = Some h /\
  is_closed h (MQ.world m) = false /\
  In h (w_started (MQ.world m)) /\
  listening h "state" (MQ.world m) = true /\
  listening h "error" (MQ.world m) = true.
Proof.
  intros [es Hrun] Hpub.
  destruct (@multi_handles_run es _ _ multi_handles_initial Hrun)
    as (Hp & Hr & _).
  pose proof (Hp h Hpub) as Hs.
  destruct (Hr h Hs) as (Hc & _ & Hst & Hl1 & Hl2 & _).
  repeat split; try assumption. apply is_closed_false, Hc.
Qed.

Lemma X7_witness :
  streamRef (MQ.refs multi_created_state) = Some 0 /\
  is_closed 0 (MQ.world multi_created_state) = false.
Proof.
  assert (Hreach : multi_reachable multi_created_state)
    by (exists [MQ.EffectRun order_descriptor; MQ.StreamCreated 0];
        reflexivity).
  destruct (@X7_published_multistream_is_current multi_created_state 0
              Hreach eq_refl) as (Hs & Hc & _).
  split; [exact Hs | exact Hc].
Defined.

(** * Re-rendering the stream hooks *)

(** X8: the two stream hooks react differently to a re-render that passes
    the same parties in a new array (same ledger, template, offset and blob
    flag, defaults spelled out or not, same [reloadTrigger]).
    [useStreamQuery] lists the array itself among its dependencies, so it
    restarts: the referenced stream is closed, and one new stream call is
    made with a descriptor equal to the previous one, while the view stays.
    [useMultiStreamQuery] lists the JSON text, so nothing happens.  When
    the array is the same object neither hook does anything. *)
Theorem X8_new_array_restarts_single_stream_only (cfg : DamlLedgerConfig)
  (tid : string) (o o' : QueryOptions) (a a' : PartyArray)
  (s : SQ.System) (m : MQ.System) :
  opt_readAsParties o = Some a ->
  opt_readAsParties o' = Some a' ->
  array_items a = array_items a' ->
  atOffset_of o = atOffset_of o' ->
  includeCreatedEventBlob_of o = includeCreatedEventBlob_of o' ->
  descriptor_of cfg tid o' = descriptor_of cfg tid o /\
  multi_rerender cfg cfg tid tid o o' m = (Ok tt, m) /\
  (array_id a = array_id a' ->
   stream_rerender cfg cfg tid tid o o' s = (Ok tt, s)) /\
  (array_id a <> array_id a' ->
   exists s',
     stream_rerender cfg cfg tid tid o o' s = (Ok tt, s') /\
     SQ.contractsMap (SQ.hook s') = SQ.contractsMap (SQ.hook s) /\
     streamRef (SQ.refs s') = None /\
     (forall h, streamRef (SQ.refs s) = Some h ->
                is_closed h (SQ.world s') = true) /\
     w_pending (SQ.world s')
     = w_pending (SQ.world s)
       ++ [(w_calls (SQ.world s), descriptor_of cfg tid o)]).
Proof.
  intros Ha Ha' Hitems Hoff Hblob.
  assert (Hd : descriptor_of cfg tid o' = descriptor_of cfg tid o).
  { unfold descriptor_of. rewrite Ha, Ha', Hoff, Hblob. cbn.
    rewrite Hitems. reflexivity. }
  split; [exact Hd|].
  assert (Hcommon :
            Nat.eqb (ledger cfg) (ledger cfg) && String.eqb tid tid
            && String.eqb (atOffset_of o) (atOffset_of o')
            && Bool.eqb (includeCreatedEventBlob_of o)
                        (includeCreatedEventBlob_of o') = true).
  { rewrite Hoff, Hblob, Nat.eqb_refl, !String.eqb_refl, Bool.eqb_reflx.
    reflexivity. }
  split; [|split].
  - unfold multi_rerender, multi_deps_same. rewrite Hcommon, Ha, Ha'.
    cbn [same_json andb]. rewrite Hitems.
    destruct (list_eq_dec string_dec (array_items a') (array_items a'));
      [|contradiction].
    rewrite Nat.eqb_refl. destruct m as [[] [] ?]. reflexivity.
  - intros Hid. unfold stream_rerender, stream_deps_same.
    rewrite Hcommon, Ha, Ha'. cbn [same_object andb].
    rewrite Hid, !Nat.eqb_refl. destruct s as [[] [] ?]. reflexivity.
  - intros Hid. unfold stream_rerender, stream_deps_same.
    rewrite Hcommon, Ha, Ha', Hd. cbn [same_object andb].
    apply Nat.eqb_neq in Hid. rewrite Hid, Nat.eqb_refl.
    open_system s.
    destruct stream as [h0|], timeout as [[|id]|]; cbn;
      eexists; repeat split; try discriminate;
      intros ? [= <-]; apply is_closed_stream_close.
Qed.

Lemma X8_witness :
  exists s',
    stream_rerender (mkConfig 0 0) (mkConfig 0 0) "Main:Order" "Main:Order"
                    alice_options alice_options_again live_state
    = (Ok tt, s') /\
    is_closed 0 (SQ.world s') = true /\
    multi_rerender (mkConfig 0 0) (mkConfig 0 0) "Main:Order" "Main:Order"
                   alice_options alice_options_again multi_created_state
    = (Ok tt, multi_created_state).
Proof.
  destruct (@X8_new_array_restarts_single_stream_only (mkConfig 0 0)
              "Main:Order" alice_options alice_options_again
              (mkPartyArray 1 ["alice"]) (mkPartyArray 2 ["alice"])
              live_state multi_created_state
              eq_refl eq_refl eq_refl eq_refl eq_refl)
    as (_ & Hm & _ & Hs).
  destruct Hs as (s' & Hr & _ & _ & Hc & _); [discriminate|].
  exists s'. split; [exact Hr|]. split; [exact (Hc 0 eq_refl) | exact Hm].
Defined.

(** * [useRightsAs] *)

Lemma fold_rights_step l : forall acc,
  fold_left rights_step l acc
  = mkRightsAcc
      (acc_actAs acc
       ++ map (fun r => string_value (right_party r))
              (filter (grants "canActAs") l))
      (acc_readAs acc
       ++ map (fun r => string_value (right_party r))
              (filter (fun r => negb (grants "canActAs" r)
                                && grants "canReadAs" r) l))
      (acc_warned acc
       ++ filter (fun r => negb (grants "canActAs" r)
                           && negb (grants "canReadAs" r)) l).
Proof.
  induction l as [|r l IH]; intros [a b c]; cbn [fold_left].
  - cbn. rewrite !app_nil_r. reflexivity.
  - rewrite IH. unfold rights_step, grants. cbn [filter].
    destruct (String.eqb (right_type r) "canActAs"
              && truthy_string (right_party r)); cbn.
    + rewrite <- app_assoc. reflexivity.
    + destruct (String.eqb (right_type r) "canReadAs"
                && truthy_string (right_party r)); cbn;
        rewrite <- app_assoc; reflexivity.
Qed.

Lemma three_way_length {A} (f g : A -> bool) (l : list A) :
  List.length (filter f l)
  + List.length (filter (fun r => negb (f r) && g r) l)
  + List.length (filter (fun r => negb (f r) && negb (g r)) l)
  = List.length l.
Proof.
  induction l as [|a l IH]; cbn; [reflexivity|].
  destruct (f a), (g a); cbn; lia.
Qed.

Lemma truthy_string_value s :
  truthy_string s = true -> string_value s <> "".
Proof.
  destruct s as [x|]; cbn; [|discriminate].
  destruct (String.eqb_spec x ""); [discriminate | auto].
Qed.

(** X9: the [reduce] of [useRightsAs] sorts every right into exactly one
    of three places, keeping the order: the act-as parties are the parties
    of the rights of type "canActAs" that carry a non-empty party, the
    read-as parties those of type "canReadAs" with a non-empty party, and
    every other right (another type, or a missing or empty party) is passed
    to [console.warn].  No party in the result is empty, and a missing user
    info or a missing [rights] array gives two empty lists and no
    warning. *)
Theorem X9_rights_are_partitioned (info : option UserInfo) :
  let acc := decompose_rights info in
  let l := rights_of info in
  acc_actAs acc
  = map (fun r => string_value (right_party r))
        (filter (grants "canActAs") l) /\
  acc_readAs acc
  = map (fun r => string_value (right_party r))
        (filter (grants "canReadAs") l) /\
  acc_warned acc
  = filter (fun r => negb (grants "canActAs" r)
                     && negb (grants "canReadAs" r)) l /\
  List.length (acc_actAs acc) + List.length (acc_readAs acc)
  + List.length (acc_warned acc) = List.length l /\
  ~ In "" (acc_actAs acc) /\ ~ In "" (acc_readAs acc) /\
  decompose_rights None = mkRightsAcc [] [] [] /\
  decompose_rights (Some (mkUserInfo None)) = mkRightsAcc [] [] [].
Proof.
  cbn zeta. unfold decompose_rights. rewrite fold_rights_step. cbn.
  assert (Hro : forall l : list Right,
             filter (fun r => negb (grants "canActAs" r)
                              && grants "canReadAs" r) l
             = filter (grants "canReadAs") l).
  { intros l. apply filter_ext. intros r. unfold grants.
    destruct (String.eqb_spec (right_type r) "canActAs") as [E|];
      [|reflexivity].
    rewrite E. cbn. rewrite andb_false_r. reflexivity. }
  rewrite Hro.
  repeat split.
  - rewrite !length_map, <- Hro. apply three_way_length.
  - intros H. apply in_map_iff in H. destruct H as (r & Hr & Hin).
    apply filter_In in Hin. destruct Hin as [_ Hg].
    apply andb_true_iff in Hg. destruct Hg as [_ Hg].
    exact (truthy_string_value _ Hg Hr).
  - intros H. apply in_map_iff in H. destruct H as (r & Hr & Hin).
    apply filter_In in Hin. destruct Hin as [_ Hg].
    apply andb_true_iff in Hg. destruct Hg as [_ Hg].
    exact (truthy_string_value _ Hg Hr).
Qed.

Lemma rights_step_sticky e s s' :
  RightsAs.step e s = Some s' ->
  (RightsAs.loading (RightsAs.hook s) = false ->
   RightsAs.loading (RightsAs.hook s') = false) /\
  (RightsAs.error (RightsAs.hook s) <> None ->
   RightsAs.error (RightsAs.hook s') <> None).
Proof.
  destruct s as [[a r l e0] c p w]. destruct e as [u t|rq [info|err]]; cbn.
  - intros [= <-]. cbn. auto.
  - destruct (existsb _ p); [|discriminate]. intros [= <-]. cbn. auto.
  - destruct (existsb _ p); [|discriminate]. intros [= <-]. cbn.
    split; [reflexivity | discriminate].
Qed.

(** X10: [useRightsAs] never clears what it has published.  Over any
    sequence of fetches and settlements, once [loading] is false it stays
    false (a later fetch does not set it again), and once [error] is set it
    stays set: a later successful fetch replaces the party lists but leaves
    the old error in place.  A failed fetch keeps the party lists of the
    last success. *)
Theorem X10_rights_error_is_never_cleared (es : list RightsAs.Event) :
  forall s s',
    RightsAs.run es s = Some s' ->
    (RightsAs.loading (RightsAs.hook s) = false ->
     RightsAs.loading (RightsAs.hook s') = false) /\
    (RightsAs.error (RightsAs.hook s) <> None ->
     RightsAs.error (RightsAs.hook s') <> None) /\
    (forall rq err s1,
        RightsAs.step (RightsAs.Settled rq (Throw err)) s' = Some s1 ->
        RightsAs.actAsParties (RightsAs.hook s1)
        = RightsAs.actAsParties (RightsAs.hook s') /\
        RightsAs.readAsParties (RightsAs.hook s1)
        = RightsAs.readAsParties (RightsAs.hook s')).
Proof.
  induction es as [|e es IH]; intros s s' H; cbn in H.
  - injection H as <-. split; [auto|]. split; [auto|].
    intros rq err s1. destruct s as [[a r l e0] c p w]. cbn.
    destruct (existsb _ p); [|discriminate]. intros [= <-]. cbn. auto.
  - destruct (RightsAs.step e s) as [s1|] eqn:E; [|discriminate].
    destruct (rights_step_sticky e s E) as [L1 E1].
    destruct (IH s1 s' H) as (L2 & E2 & K).
    split; [auto|]. split; [auto|exact K].
Qed.

Lemma X10_witness :
  RightsAs.error (RightsAs.hook rights_after_refetch) <> None /\
  RightsAs.loading (RightsAs.hook rights_after_refetch) = false.
Proof.
  destruct (@X10_rights_error_is_never_cleared
              (skipn 2 rights_failed_then_fetched)
              (RightsAs.resume (Throw network_error)
                 (RightsAs.mkSystem (RightsAs.mkHook [] [] true None) 1 [] []))
              rights_after_refetch eq_refl) as (Hl & He & _).
  split; [apply He; discriminate | apply Hl; reflexivity].
Defined.

(** * [useQuery] and [useUser] *)

(** X11: [readAsParties] is missing from the dependencies of the [reload]
    callback of [useQuery].  A re-render that changes nothing but
    [readAsParties] (same ledger, template object, offset and blob flag,
    same [reloadTrigger]) issues no query and keeps the old callback, so a
    later [reload()], and also a re-run of the effect for a changed
    [reloadTrigger] alone, queries with the parties captured earlier.  When
    one of the four listed dependencies changes, the re-render issues one
    query with the current arguments. *)
Theorem X11_reload_keeps_stale_parties (s : Query.System)
  (args : Query.QueryArgs) (trigger : nat) :
  (Query.callback_deps_same (Query.reload_fn s) args = true ->
   Query.rerender args (Query.seen_trigger s) s = s /\
   Query.pending (Query.reload (Query.rerender args (Query.seen_trigger s) s))
   = Query.pending s ++ [(Query.calls s, Query.reload_fn s)] /\
   (trigger <> Query.seen_trigger s ->
    Query.pending (Query.rerender args trigger s)
    = Query.pending s ++ [(Query.calls s, Query.reload_fn s)])) /\
  (Query.callback_deps_same (Query.reload_fn s) args = false ->
   Query.pending (Query.rerender args trigger s)
   = Query.pending s ++ [(Query.calls s, args)] /\
   Query.reload_fn (Query.rerender args trigger s) = args).
Proof.
  destruct s as [h fn id seen c p]. unfold Query.rerender. cbn.
  split; intros ->; cbn.
  - rewrite Nat.eqb_refl. repeat split.
    intros Hneq. apply Nat.eqb_neq in Hneq. rewrite Hneq. reflexivity.
  - split; reflexivity.
Qed.

Lemma X11_witness :
  Query.rerender bob_query 0 (Query.mount alice_query 0)
  = Query.mount alice_query 0 /\
  Query.pending (Query.reload
                   (Query.rerender bob_query 0 (Query.mount alice_query 0)))
  = [(0, alice_query); (1, alice_query)].
Proof.
  destruct (proj1 (X11_reload_keeps_stale_parties
                     (Query.mount alice_query 0) bob_query 0) eq_refl)
    as (Hsame & Hreload & _).
  split; [exact Hsame | exact Hreload].
Defined.

Lemma eqb_succ_self c : Nat.eqb (S c) c = false.
Proof. apply Nat.eqb_neq. apply Nat.neq_succ_diag_l. Qed.

Lemma query_serial_step e s s' :
  Query.overlaps e s = false -> Query.step e s = Some s' ->
  ((exists p, Query.pending s = [p] /\
              Query.loading (Query.hook s) = true /\
              Query.error (Query.hook s) = None) \/
   (Query.pending s = [] /\ Query.loading (Query.hook s) = false /\
    (Query.error (Query.hook s) <> None ->
     Query.contracts (Query.hook s) = []))) ->
  (exists p, Query.pending s' = [p] /\
             Query.loading (Query.hook s') = true /\
             Query.error (Query.hook s') = None) \/
  (Query.pending s' = [] /\ Query.loading (Query.hook s') = false /\
   (Query.error (Query.hook s') <> None ->
    Query.contracts (Query.hook s') = [])).
Proof.
  destruct s as [[cs l er] fn id seen c p].
  intros Hov Hstep Hinv. cbn in Hinv.
  destruct e as [args t| |rq outcome].
  - unfold Query.overlaps in Hov. cbn in Hov, Hstep.
    injection Hstep as <-.
    unfold Query.rerender in *. cbn in *.
    destruct (Query.callback_deps_same fn args); cbn in *;
      [destruct (Nat.eqb t seen); cbn in *; [exact Hinv|]|];
      (destruct Hinv as [(q & -> & _)|(-> & _ & _)];
       [change (negb (Nat.eqb (S c) c) = false) in Hov;
        rewrite eqb_succ_self in Hov; discriminate Hov
       |left; eexists; repeat split]).
  - unfold Query.overlaps in Hov. cbn in Hov, Hstep.
    injection Hstep as <-.
    destruct Hinv as [(q & -> & _)|(-> & _ & _)];
      [change (negb (Nat.eqb (S c) c) = false) in Hov;
        rewrite eqb_succ_self in Hov; discriminate Hov
      |left; eexists; repeat split].
  - cbn in Hstep.
    destruct Hinv as [(q & -> & -> & ->)|(-> & _ & _)];
      cbn in Hstep; [|discriminate Hstep].
    unfold Query.take in Hstep. cbn in Hstep.
    destruct (Nat.eqb (fst q) rq) eqn:Eq; cbn in Hstep;
      [|discriminate Hstep].
    injection Hstep as <-. right.
    destruct outcome as [result|err]; cbn;
      (split; [reflexivity|]); (split; [reflexivity|]); intros H;
      first [reflexivity | exfalso; apply H; reflexivity].
Qed.

(** X12: as long as queries do not overlap, [useQuery] never shows an error
    together with contracts.  From the mount on, either exactly one query
    is pending, and then [loading] is true and [error] is null, or none is
    pending, and then [loading] is false and a non-null [error] comes with
    an empty contract list: a failed query clears the contracts of the
    earlier success, and starting a query clears the error. *)
Theorem X12_query_error_comes_with_no_contracts (es : list Query.Event)
  (args : Query.QueryArgs) (trigger : nat) (s : Query.System) :
  Query.run_serial es (Query.mount args trigger) = Some s ->
  (exists p, Query.pending s = [p] /\
             Query.loading (Query.hook s) = true /\
             Query.error (Query.hook s) = None) \/
  (Query.pending s = [] /\ Query.loading (Query.hook s) = false /\
   (Query.error (Query.hook s) <> None ->
    Query.contracts (Query.hook s) = [])).
Proof.
  assert (Hgen : forall es s0 s1,
             ((exists p, Query.pending s0 = [p] /\
                         Query.loading (Query.hook s0) = true /\
                         Query.error (Query.hook s0) = None) \/
              (Query.pending s0 = [] /\
               Query.loading (Query.hook s0) = false /\
               (Query.error (Query.hook s0) <> None ->
                Query.contracts (Query.hook s0) = []))) ->
             Query.run_serial es s0 = Some s1 ->
             (exists p, Query.pending s1 = [p] /\
                        Query.loading (Query.hook s1) = true /\
                        Query.error (Query.hook s1) = None) \/
             (Query.pending s1 = [] /\
              Query.loading (Query.hook s1) = false /\
              (Query.error (Query.hook s1) <> None ->
               Query.contracts (Query.hook s1) = []))).
  { clear. induction es as [|e es IH]; intros s0 s1 Hinv H; cbn in H.
    - injection H as <-. exact Hinv.
    - destruct (Query.overlaps e s0) eqn:Hov; [discriminate|].
      destruct (Query.step e s0) as [s2|] eqn:E; [|discriminate].
      exact (IH s2 s1 (query_serial_step e s0 Hov E Hinv) H). }
  intros H. apply (Hgen es (Query.mount args trigger) s); [|exact H].
  left. eexists. repeat split.
Qed.

Lemma X12_witness :
  Query.error (Query.hook query_failed_state)
  = Some (mkJsError "Error" "network down") /\
  Query.contracts (Query.hook query_failed_state) = [].
Proof.
  split; [reflexivity|].
  destruct (@X12_query_error_comes_with_no_contracts query_then_failure
              alice_query 0 query_failed_state eq_refl)
    as [(p & Hp & _)|(_ & _ & Hc)].
  - discriminate Hp.
  - apply Hc. discriminate.
Defined.

Lemma user_serial_run {User} es : forall s s' : UserHook.System User,
  user_settled_or_fetching s ->
  UserHook.run_serial es s = Some s' ->
  user_settled_or_fetching s'.
Proof.
  unfold user_settled_or_fetching.
  induction es as [|e es IH]; intros s s' Hinv H; cbn in H.
  - injection H as <-. exact Hinv.
  - destruct s as [[u l er] c p]. cbn in Hinv.
    destruct e as [|rq outcome].
    + destruct p as [|q p]; [|discriminate H]. cbn in H.
      eapply IH; [|exact H]. cbn.
      right. left. eexists. repeat split.
    + destruct Hinv as [(-> & _)|[(q & -> & -> & ->)|(-> & _)]];
        cbn in H; try discriminate H.
      destruct (Nat.eqb rq q) eqn:Eq; cbn in H; [|discriminate H].
      try (rewrite Nat.eqb_sym, Eq in H; cbn in H).
      destruct outcome as [info|err]; (eapply IH; [|exact H]); cbn;
        right; right; (split; [reflexivity|]); (split; [reflexivity|]);
        [left | right]; split; solve [reflexivity | discriminate].
Qed.



(** * The provider *)

Lemma provider_render_ok st :
  LedgerProvider.memo_deps st = None \/ LedgerProvider.allocated_ok st ->
  LedgerProvider.allocated_ok (LedgerProvider.render st) /\
  LedgerProvider.ledger (LedgerProvider.render st)
  = S (LedgerProvider.allocated st) /\
  LedgerProvider.reloadTrigger (LedgerProvider.render st)
  = LedgerProvider.reloadTrigger st.
Proof.
  destruct st as [t deps l n]. unfold LedgerProvider.allocated_ok.
  unfold LedgerProvider.render. cbn.
  intros [->|(Hl & t0 & p0 & -> & Hp)]; cbn.
  - repeat split; try lia. exists t, n. split; [reflexivity | lia].
  - assert (Hneq : Nat.eqb p0 n = false) by (apply Nat.eqb_neq; lia).
    rewrite Hneq, andb_false_r. cbn.
    repeat split; try lia. exists t, n. split; [reflexivity | lia].
Qed.

Lemma provider_run_ok es : forall st,
  LedgerProvider.allocated_ok st ->
  LedgerProvider.allocated_ok (LedgerProvider.run es st).
Proof.
  induction es as [|e es IH]; intros st Hst; [exact Hst|].
  cbn. apply IH. destruct e; cbn.
  - apply provider_render_ok. right. exact Hst.
  - apply provider_render_ok. right.
    destruct st as [t deps l n]. exact Hst.
Qed.

(** X14: the memo in [DamlLedger] never hits.  [otherProps] is a new object
    on every render, so after any history of renders and reloads the next
    render builds a new ledger, with [reloadTrigger] unchanged.  Every
    stream hook below therefore sees a changed [ledger] dependency: on its
    re-render [useStreamQuery] and [useMultiStreamQuery] clean up and run
    their streaming effect again, although template and options are the
    same. *)
Theorem X14_every_provider_render_restarts_streams
  (es : list LedgerProvider.Event) (tid : string) (o : QueryOptions)
  (s : SQ.System) (m : MQ.System) :
  let st := LedgerProvider.run es
              (LedgerProvider.render LedgerProvider.unmounted) in
  let cfg := LedgerProvider.contextValue st in
  let cfg' := LedgerProvider.contextValue (LedgerProvider.render st) in
  ledger cfg' <> ledger cfg /\
  reloadTrigger cfg' = reloadTrigger cfg /\
  stream_rerender cfg cfg' tid tid o o s
  = bind SQ.cleanup (fun _ => SQ.effect (descriptor_of cfg' tid o)) s /\
  multi_rerender cfg cfg' tid tid o o m
  = bind MQ.cleanup (fun _ => MQ.effect (descriptor_of cfg' tid o)) m.
Proof.
  cbn zeta.
  set (st := LedgerProvider.run es
               (LedgerProvider.render LedgerProvider.unmounted)).
  assert (Hok : LedgerProvider.allocated_ok st).
  { apply provider_run_ok. apply provider_render_ok. left. reflexivity. }
  destruct (@provider_render_ok st (or_intror Hok)) as (_ & Hl & Ht).
  assert (Hneq : ledger (LedgerProvider.contextValue
                           (LedgerProvider.render st))
                 <> ledger (LedgerProvider.contextValue st)).
  { cbn. rewrite Hl. destruct Hok as [Hlt _]. lia. }
  split; [exact Hneq|]. split; [exact Ht|].
  assert (Hdeps : Nat.eqb (ledger (LedgerProvider.contextValue st))
                          (ledger (LedgerProvider.contextValue
                                     (LedgerProvider.render st))) = false).
  { apply Nat.eqb_neq. intros E. apply Hneq. symmetry. exact E. }
  split.
  - unfold stream_rerender, stream_deps_same. rewrite Hdeps. cbn [andb].
    change (reloadTrigger (LedgerProvider.contextValue
                             (LedgerProvider.render st)))
      with (LedgerProvider.reloadTrigger (LedgerProvider.render st)).
    change (reloadTrigger (LedgerProvider.contextValue st))
      with (LedgerProvider.reloadTrigger st).
    rewrite Ht, Nat.eqb_refl. unfold bind.
    destruct (SQ.cleanup s) as [[[]|t] s1]; [|reflexivity].
    destruct (SQ.effect _ s1) as [[[]|t] s2]; reflexivity.
  - unfold multi_rerender, multi_deps_same. rewrite Hdeps. cbn [andb].
    change (reloadTrigger (LedgerProvider.contextValue
                             (LedgerProvider.render st)))
      with (LedgerProvider.reloadTrigger (LedgerProvider.render st)).
    change (reloadTrigger (LedgerProvider.contextValue st))
      with (LedgerProvider.reloadTrigger st).
    rewrite Ht, Nat.eqb_refl. unfold bind.
    destruct (MQ.cleanup m) as [[[]|t] m1]; [|reflexivity].
    destruct (MQ.effect _ m1) as [[[]|t] m2]; reflexivity.
Qed.

(** * Connected means loaded *)

Lemma connected_step e s r s' :
  lifecycle_event e = false -> resets_view e = false ->
  in_lifetime s ->
  (streamRef (SQ.refs s) = None -> w_listeners (SQ.world s) = []) ->
  (SQ.connected (SQ.hook s) = true ->
   SQ.loading (SQ.hook s) = false /\ streaming s) ->
  SQ.step e s = Some (r, s') ->
  (streamRef (SQ.refs s') = None -> w_listeners (SQ.world s') = []) /\
  (SQ.connected (SQ.hook s') = true ->
   SQ.loading (SQ.hook s') = false /\ streaming s').
Proof.
  unfold in_lifetime, connecting, waiting, streaming.
  intros He Hr (Hflag & Hclosed & Hphase) Hlist Hconn H. open_system s.
  destruct w as [calls pending listeners started closed count timers].
  cbn [SQ.world SQ.refs SQ.hook SQ.connected SQ.loading streamRef
       reconnectTimeoutRef isCleanedUpRef
       w_pending w_timers w_started w_closed w_listeners] in *.
  subst cleaned closed.
  destruct e as [| |rq|rq err|[|id]|h ev|h ev|h err|h st| |[|n]];
    try discriminate He; try discriminate Hr; clear He Hr;
    (destruct Hphase as [(rq0 & d0 & -> & -> & -> & ->)
                        |[(id0 & [delay d1] & -> & -> & -> & -> & ->)
                         |(h0 & -> & -> & -> & ->)]]);
    try (specialize (Hlist eq_refl); subst listeners);
    expose_world H; try discriminate H.
  all: repeat match type of H with
         | context [Nat.eqb ?a ?b] =>
             destruct (Nat.eqb_spec a b); [subst|]; cbn in H
         | (if ?c then _ else _) = _ => destruct c; cbn in H
         | context [String.eqb ?a ?b] => destruct (String.eqb a b); cbn in H
         end.
  all: try discriminate H.
  all: rewrite ?Nat.eqb_refl in H; cbn in H.
  all: outcome H; cbn; (split; [try discriminate; try reflexivity|]).
  all: intros Hc; try discriminate Hc.
  all: try (destruct (Hconn Hc) as (Hl & hx & Hx1 & Hx2 & Hx3 & Hx4);
            try discriminate Hx1; try discriminate Hx2;
            try discriminate Hx3).
  all: try (split; [first [reflexivity | assumption]
                   | eexists; repeat split; reflexivity]).
Qed.


